(** * cover-letter-ai: the web client's helpers and form handlers, and the
      letter pipeline the specification describes.

    The TypeScript sources ([apps/web/src/lib/env.ts],
    [apps/web/src/lib/contentDisposition.ts], the older [env.ts], and the
    [GeneratorForm] component) are embedded function by function.  The
    Python services of [apps/api] ([llm_letter.py], [docx_render.py]) are
    not part of the sources at hand; their operations are modelled from the
    specification and marked as such. *)

From Stdlib Require Import NArith List Lia Bool Ascii String DecimalString.
From stdpp Require Import base option list gmap strings.

Set Warnings "-register-all".

Local Open Scope N_scope.

(** ** JavaScript strings

    A JavaScript string is a sequence of UTF-16 code units.  A code unit is
    kept as an [N]; nothing below depends on the bound [< 65536]. *)

Abbreviation jsstring := (list N).

(** ASCII literals of the sources, as code units. *)
Definition str (s : string) : jsstring :=
  map N_of_ascii (list_ascii_of_string s).

(** Truthiness of a string value: the empty string is falsy. *)
Definition truthy (s : jsstring) : bool :=
  match s with [] => false | _ :: _ => true end.

(** Truthiness of [string | undefined] (or [string | null]). *)
Definition truthy_opt (o : option jsstring) : bool :=
  match o with None => false | Some s => truthy s end.

(** [WhiteSpace] and [LineTerminator] code points, the characters
    [String.prototype.trim] removes. *)
Definition is_js_whitespace (c : N) : bool :=
  (c =? 9) || (c =? 10) || (c =? 11) || (c =? 12) || (c =? 13) ||
  (c =? 32) || (c =? 160) || (c =? 5760) ||
  ((8192 <=? c) && (c <=? 8202)) ||
  (c =? 8232) || (c =? 8233) || (c =? 8239) || (c =? 8287) ||
  (c =? 12288) || (c =? 65279).

Fixpoint trimStart (s : jsstring) : jsstring :=
  match s with
  | [] => []
  | c :: s' => if is_js_whitespace c then trimStart s' else s
  end.

Definition trimEnd (s : jsstring) : jsstring := rev (trimStart (rev s)).

Definition trim (s : jsstring) : jsstring := trimEnd (trimStart s).

(** The conversion of a string to a [USVString], which the platform applies
    to the string arguments of [FormData.append]: a surrogate code unit that
    is not half of a pair becomes U+FFFD; a high surrogate followed by a low
    one stays, with it. *)
Definition is_high_surrogate (c : N) : bool := (55296 <=? c) && (c <=? 56319).

Definition is_low_surrogate (c : N) : bool := (56320 <=? c) && (c <=? 57343).

Definition replacement_character : N := 65533.

Fixpoint to_usv (s : jsstring) : jsstring :=
  match s with
  | [] => []
  | c :: s' =>
      if is_high_surrogate c then
        match s' with
        | d :: s'' =>
            if is_low_surrogate d then c :: d :: to_usv s''
            else replacement_character :: to_usv s'
        | [] => [replacement_character]
        end
      else if is_low_surrogate c then replacement_character :: to_usv s'
      else c :: to_usv s'
  end.

(** A string without a surrogate code unit outside a pair. *)
Definition well_formed (s : jsstring) : Prop := to_usv s = s.

(** ** [apps/web/src/lib/contentDisposition.ts] *)

Module ContentDisposition.

Definition quote : N := 34.

(** [Canonicalize] of a case-insensitive, non-unicode pattern.  The
    pattern's letters are ASCII, and a code unit above 127 never
    canonicalizes to an ASCII one, so folding the ASCII lower-case
    letters is all that the comparison against the pattern needs. *)
Definition canonicalize (c : N) : N :=
  if (97 <=? c) && (c <=? 122) then c - 32 else c.

(** The letters of the pattern's literal part; the opening double quote
    follows them. *)
Definition keyword : jsstring := str "filename=".

(** Match a literal at the head of the input, ignoring case; the rest of
    the input is returned. *)
Fixpoint match_literal (pat s : jsstring) : option jsstring :=
  match pat with
  | [] => Some s
  | p :: pat' =>
      match s with
      | [] => None
      | c :: s' =>
          if canonicalize c =? canonicalize p
          then match_literal pat' s' else None
      end
  end.

(** The longest run of characters other than the double quote (the
    pattern's negated class) at the head of the input, and what follows
    it. *)
Fixpoint class_run (s : jsstring) : jsstring * jsstring :=
  match s with
  | [] => ([], [])
  | c :: s' =>
      if c =? quote then ([], s)
      else let '(run, rest) := class_run s' in (c :: run, rest)
  end.

(** One attempt of the pattern at the head of the input: the literal with
    its opening quote, the greedy group of one or more characters of the
    class, and the closing quote.  Backtracking into the group cannot
    help: a shorter run is followed by a character of the class, never by
    the closing quote.  The captured group is returned. *)
Definition match_here (s : jsstring) : option jsstring :=
  match match_literal (keyword ++ [quote]) s with
  | None => None
  | Some rest =>
      match class_run rest with
      | ([], _) => None
      | (g, c :: _) => if c =? quote then Some g else None
      | (_, []) => None
      end
  end.

(** [RegExp.prototype.exec] without the [g] flag: the first position,
    left to right, at which the pattern matches. *)
Fixpoint exec (s : jsstring) : option jsstring :=
  match match_here s with
  | Some g => Some g
  | None =>
      match s with
      | [] => None
      | _ :: s' => exec s'
      end
  end.

Definition parseFilenameFromContentDisposition
    (value : option jsstring) : option jsstring :=
  match value with
  | None => None
  | Some v =>
      if negb (truthy v) then None
      else
        match exec v with
        | Some g => if truthy g then Some g else None
        | None => None
        end
  end.

End ContentDisposition.

(** ** [apps/web/src/lib/env.ts] and its predecessor

    [process.env] is a map from variable names to strings; a variable that
    is not set reads as [undefined]. *)

Abbreviation environment := (gmap string jsstring).

Definition localhost : jsstring := str "http://localhost:8000".

Definition production : jsstring :=
  str "https://cover-letter-ai-production.up.railway.app".

(** The first version of the file: no trimming, no Vercel default. *)
Module EnvLegacy.

Definition getApiBaseUrl (env : environment) : jsstring :=
  let raw := env !! "NEXT_PUBLIC_API_BASE_URL"%string in
  match raw with
  | Some r => if truthy r && (0 <? length r)%nat then r else localhost
  | None => localhost
  end.

End EnvLegacy.

(** The current version. *)
Module Env.

Definition getApiBaseUrl (env : environment) : jsstring :=
  let raw := trim <$> env !! "NEXT_PUBLIC_API_BASE_URL"%string in
  let rest :=
    let isVercel := truthy_opt (env !! "VERCEL"%string) in
    if isVercel then production else localhost in
  match raw with
  | Some r => if truthy r && (0 <? length r)%nat then r else rest
  | None => rest
  end.

End Env.

(** ** [apps/web/src/lib/http.ts] and the [GeneratorForm] component *)

Module GeneratorForm.

Inductive Language := de | en.
Inductive Tone := professional | friendly | concise.
Inductive Length := short | medium | long.

Definition Language_str (l : Language) : jsstring :=
  match l with de => str "de" | en => str "en" end.

Definition Tone_str (t : Tone) : jsstring :=
  match t with
  | professional => str "professional"
  | friendly => str "friendly"
  | concise => str "concise"
  end.

Definition Length_str (l : Length) : jsstring :=
  match l with
  | short => str "short" | medium => str "medium" | long => str "long"
  end.

Inductive GenerateState :=
| GenIdle
| GenLoading
| GenError (message : jsstring)
| GenDone (downloadUrl filename : jsstring).

Inductive PreviewState :=
| PrevIdle
| PrevLoading
| PrevError (message : jsstring).

(** Values the platform hands around. *)
Record File := { file_name : jsstring; file_bytes : list N }.

Abbreviation Blob := (list N).

Inductive Json :=
| JNull
| JBool (b : bool)
| JNumber (n : N)
| JString (s : jsstring)
| JArray (items : list Json)
| JObject (fields : list (jsstring * Json)).

Inductive FormValue :=
| FormString (s : jsstring)
| FormFile (f : File).

(** [FormData]: the entries in the order [append] added them. *)
Abbreviation FormData := (list (jsstring * FormValue)).

(** The value of the entry [append] creates: a string is converted to a
    [USVString], a file is kept. *)
Definition entry_value (v : FormValue) : FormValue :=
  match v with
  | FormString s => FormString (to_usv s)
  | FormFile f => FormFile f
  end.

(** [FormData.append(name, value)]: the name is converted too. *)
Definition append (name : jsstring) (v : FormValue) (form : FormData)
  : FormData := form ++ [(to_usv name, entry_value v)].

(** What a [throw] carries: the [HttpError] of [http.ts], another [Error],
    or a value that is no [Error] at all. *)
Inductive Thrown :=
| HttpError (status : N) (bodyText : jsstring)
| OtherError (message : jsstring)
| NotAnError.

Record Response := {
  res_ok : bool;
  res_status : N;
  (** [res.text()]; [None] when the promise rejects *)
  res_text : option jsstring;
  (** [res.blob()] *)
  res_blob : Thrown + Blob;
  (** [res.json()] *)
  res_json : Thrown + Json;
  (** [res.headers.get] of the Content-Disposition header *)
  res_content_disposition : option jsstring
}.

(** What the handlers do to the outside and to the component, in order. *)
Inductive Effect :=
| SetState (s : GenerateState)
| SetPreviewState (s : PreviewState)
| SetTargetRole (r : jsstring)
| SetDownloadUrlRef (u : jsstring)
| RevokeObjectURL (u : jsstring)
| CreateObjectURL (b : Blob)
| Fetch (url : jsstring) (body : FormData).

(** The component's state: the [useState] cells and the [useRef] cell. *)
Record Component := {
  jobUrl : jsstring;
  jobText : jsstring;
  cvFile : option File;
  language : Language;
  tone : Tone;
  letterLength : Length;
  targetRole : jsstring;
  state : GenerateState;
  previewState : PreviewState;
  downloadUrlRef : option jsstring
}.

Definition initial : Component :=
  {| jobUrl := []; jobText := []; cvFile := None;
     language := de; tone := professional; letterLength := medium;
     targetRole := []; state := GenIdle; previewState := PrevIdle;
     downloadUrlRef := None |}.

(** The four cells the handlers write. *)
Definition set_state (s : GenerateState) (c : Component) : Component :=
  {| jobUrl := jobUrl c; jobText := jobText c; cvFile := cvFile c;
     language := language c; tone := tone c; letterLength := letterLength c;
     targetRole := targetRole c; state := s; previewState := previewState c;
     downloadUrlRef := downloadUrlRef c |}.

Definition set_previewState (s : PreviewState) (c : Component) : Component :=
  {| jobUrl := jobUrl c; jobText := jobText c; cvFile := cvFile c;
     language := language c; tone := tone c; letterLength := letterLength c;
     targetRole := targetRole c; state := state c; previewState := s;
     downloadUrlRef := downloadUrlRef c |}.

Definition set_targetRole (r : jsstring) (c : Component) : Component :=
  {| jobUrl := jobUrl c; jobText := jobText c; cvFile := cvFile c;
     language := language c; tone := tone c; letterLength := letterLength c;
     targetRole := r; state := state c; previewState := previewState c;
     downloadUrlRef := downloadUrlRef c |}.

Definition set_downloadUrlRef (u : jsstring) (c : Component) : Component :=
  {| jobUrl := jobUrl c; jobText := jobText c; cvFile := cvFile c;
     language := language c; tone := tone c; letterLength := letterLength c;
     targetRole := targetRole c; state := state c;
     previewState := previewState c; downloadUrlRef := Some u |}.

(** A handler's effect on the component's cells. *)
Definition apply_effect (c : Component) (e : Effect) : Component :=
  match e with
  | SetState s => set_state s c
  | SetPreviewState s => set_previewState s c
  | SetTargetRole r => set_targetRole r c
  | SetDownloadUrlRef u => set_downloadUrlRef u c
  | CreateObjectURL _ | RevokeObjectURL _ | Fetch _ _ => c
  end.

(** The component after a run of a handler. *)
Definition after (c : Component) (log : list Effect) : Component :=
  foldl apply_effect c log.

Definition is_fetch (e : Effect) : bool :=
  match e with Fetch _ _ => true | _ => false end.

(** The requests a run of a handler sent. *)
Definition requests (log : list Effect) : list Effect := filter is_fetch log.

(** The states a run of a handler passed to [setState], in order. *)
Definition states_set (log : list Effect) : list GenerateState :=
  omap (fun e => match e with SetState s => Some s | _ => None end) log.

Definition preview_states_set (log : list Effect) : list PreviewState :=
  omap (fun e => match e with SetPreviewState s => Some s | _ => None end) log.

Definition lookup_field (name : jsstring) (fields : list (jsstring * Json))
  : option Json :=
  snd <$> find (fun kv => bool_decide (fst kv = name)) fields.

(** [`HTTP ${status}`] *)
Definition http_label (status : N) : jsstring :=
  str "HTTP " ++ str (NilEmpty.string_of_uint (N.to_uint status)).

(** The body of a [try]: the effects performed so far, and what was thrown
    or the value reached. *)
Definition Try (A : Type) : Type := list Effect * (Thrown + A).

Definition ret {A} (a : A) : Try A := ([], inr a).

Definition throw {A} (e : Thrown) : Try A := ([], inl e).

#[export] Instance Try_bind : MBind Try := fun A B k m =>
  match m with
  | (log, inl e) => (log, inl e)
  | (log, inr a) => let '(log', r) := k a in (log ++ log', r)
  end.

#[export] Instance Try_ret : MRet Try := @ret.

(** An effect on the outside or on a cell of the component. *)
Definition perform (e : Effect) : Try unit := ([e], inr tt).

(** A value the platform gives, or what it throws instead. *)
Definition await {A} (r : Thrown + A) : Try A := ([], r).

(** [try { body } catch (err) { handler }] *)
Definition try_catch (body : Try unit) (handler : Thrown -> list Effect)
  : list Effect :=
  match body with
  | (log, inl err) => log ++ handler err
  | (log, inr _) => log
  end.

Section Platform.

(** The browser and the network. *)
Variable JSON_parse : jsstring -> option Json.
Variable URL_new : jsstring -> jsstring -> Thrown + jsstring.
Variable createObjectURL : Blob -> jsstring.
Variable fetch : jsstring -> FormData -> Thrown + Response.
Variable env : environment.

(** [http.ts]: a response that is not ok is thrown as an [HttpError], with
    the body's text, or the empty string if that cannot be read. *)
Definition fetchOk (input : jsstring) (body : FormData) : Try Response :=
  res ← (perform (Fetch input body) ;; await (fetch input body));
  if negb (res_ok res)
  then
    let bodyText := default [] (res_text res) in
    throw (HttpError (res_status res) bodyText)
  else ret res.

Definition getErrorMessage (err : Thrown) : jsstring :=
  match err with
  | HttpError status bodyText =>
      let detail :=
        match JSON_parse bodyText with
        | Some (JObject fields) =>
            match lookup_field (str "detail") fields with
            | Some (JString d) => Some d
            | _ => None
            end
        | _ => None
        end in
      match detail with
      | Some d => d
      | None =>
          if truthy bodyText
          then http_label status ++ str ": " ++ bodyText
          else http_label status
      end
  | OtherError message => message
  | NotAnError => str "An unknown error occurred."
  end.

Definition apiBaseUrl : jsstring := Env.getApiBaseUrl env.

(** The form [onGenerate] builds. *)
Definition generate_form (c : Component) : FormData :=
  let form : FormData := [] in
  let form :=
    match cvFile c with
    | Some f => append (str "cv_pdf") (FormFile f) form
    | None => form
    end in
  let form :=
    if (0 <? length (trim (jobUrl c)))%nat
    then append (str "job_url") (FormString (trim (jobUrl c))) form
    else form in
  let form :=
    if (0 <? length (trim (jobText c)))%nat
    then append (str "job_text") (FormString (trim (jobText c))) form
    else form in
  let form := append (str "language") (FormString (Language_str (language c))) form in
  let form := append (str "tone") (FormString (Tone_str (tone c))) form in
  let form := append (str "length") (FormString (Length_str (letterLength c))) form in
  if (0 <? length (trim (targetRole c)))%nat
  then append (str "target_role") (FormString (trim (targetRole c))) form
  else form.

(** [onGenerate]: the effects of one run, in order. *)
Definition onGenerate (c : Component) : list Effect :=
  if (length (trim (jobUrl c)) =? 0)%nat && (length (trim (jobText c)) =? 0)%nat
  then
    [SetState (GenError (str "Please provide either a Job URL or Job Text."))]
  else
    match state c with
    | GenDone downloadUrl _ => [RevokeObjectURL downloadUrl]
    | _ => []
    end ++
    [SetState GenLoading] ++
    let form := generate_form c in
    try_catch
      (url ← await (URL_new (str "/v1/generate") apiBaseUrl);
       res ← fetchOk url form;
       blob ← await (res_blob res);
       perform (CreateObjectURL blob) ;;
       let downloadUrl := createObjectURL blob in
       perform (SetDownloadUrlRef downloadUrl) ;;
       let filename :=
         default (str "Cover_Letter.docx")
           (ContentDisposition.parseFilenameFromContentDisposition
              (res_content_disposition res)) in
       perform (SetState (GenDone downloadUrl filename)))
      (fun err => [SetState (GenError (getErrorMessage err))]).

(** [autofillRoleFromUrl]: the effects of one run, in order. *)
Definition autofillRoleFromUrl (c : Component) : list Effect :=
  let url := trim (jobUrl c) in
  if negb (truthy url)
  then [SetPreviewState (PrevError (str "Please enter a Job URL first."))]
  else if (0 <? length (trim (jobText c)))%nat
  then
    [SetPreviewState
       (PrevError (str "Job text is set " ++ [8211] ++
                   str " role will be derived from it."))]
  else
    [SetPreviewState PrevLoading] ++
    try_catch
      (let form := append (str "job_url") (FormString url) [] in
       target ← await (URL_new (str "/v1/job/preview") apiBaseUrl);
       res ← fetchOk target form;
       data ← await (res_json res);
       let role :=
         match data with
         | JObject fields =>
             match lookup_field (str "role") fields with
             | Some (JString r) => Some (trim r)
             | _ => None
             end
         | _ => None
         end in
       match role with
       | Some r =>
           if (0 <? length r)%nat
           then perform (SetTargetRole r) ;; perform (SetPreviewState PrevIdle)
           else
             perform
               (SetPreviewState
                  (PrevError (str "Could not detect role from URL.")))
       | None =>
           perform
             (SetPreviewState
                (PrevError (str "Could not detect role from URL.")))
       end)
      (fun err => [SetPreviewState (PrevError (getErrorMessage err))]).

End Platform.

End GeneratorForm.

(** ** The letter pipeline of [apps/api]

    Python strings are sequences of code points, kept as [list N] too. *)

Abbreviation pystring := (list N).

(** Drop the longest run of elements satisfying [P] at the end of a list:
    the scan from the end that the sanitizer's steps and [rstrip] share. *)
Fixpoint drop_trailing {A} (P : A -> bool) (l : list A) : list A :=
  match l with
  | [] => []
  | x :: l' =>
      match drop_trailing P l' with
      | [] => if P x then [] else [x]
      | y :: r => x :: y :: r
      end
  end.

Fixpoint drop_leading {A} (P : A -> bool) (l : list A) : list A :=
  match l with
  | [] => []
  | x :: l' => if P x then drop_leading P l' else l
  end.

(** [s.strip(chars)] for the characters satisfying [P]. *)
Definition strip (P : N -> bool) (s : pystring) : pystring :=
  drop_trailing P (drop_leading P s).

(** [s.split(sep)] for a one-character separator. *)
Fixpoint split_on (sep : N) (s : pystring) : list pystring :=
  match s with
  | [] => [[]]
  | c :: s' =>
      if c =? sep then [] :: split_on sep s'
      else
        match split_on sep s' with
        | [] => [[c]]
        | h :: t => (c :: h) :: t
        end
  end.

(** [str.isspace] *)
Definition py_isspace (c : N) : bool :=
  ((9 <=? c) && (c <=? 13)) || ((28 <=? c) && (c <=? 32)) ||
  (c =? 133) || (c =? 160) || (c =? 5760) ||
  ((8192 <=? c) && (c <=? 8202)) ||
  (c =? 8232) || (c =? 8233) || (c =? 8239) || (c =? 8287) || (c =? 12288).

(** The characters of [string.punctuation]. *)
Definition py_ispunct (c : N) : bool :=
  ((33 <=? c) && (c <=? 47)) || ((58 <=? c) && (c <=? 64)) ||
  ((91 <=? c) && (c <=? 96)) || ((123 <=? c) && (c <=? 126)).

Definition comma : N := 44.

(** Lower case of the ASCII and Latin-1 capitals. *)
Definition lower_char (c : N) : N :=
  if ((65 <=? c) && (c <=? 90)) ||
     ((192 <=? c) && (c <=? 222) && negb (c =? 215))
  then c + 32 else c.

Definition lower (s : pystring) : pystring := map lower_char s.

Module Letter.

(** Modelled from the spec: the [LetterContent] of section 3; the Pydantic
    model of [apps/api] is not among the sources. *)
Record LetterContent := {
  date : pystring;
  recipientBlock : list pystring;
  roleTitle : pystring;
  company : pystring;
  subject : pystring;
  salutation : pystring;
  bodyParagraphs : list pystring;
  closing : pystring;
  signatureName : pystring
}.

End Letter.

Module Sanitizer.
Import Letter.

(** Modelled from the spec: what two lines are compared by in step 2 of
    section 4.3, case-insensitively after trimming punctuation (the
    comparison of [llm_letter.py] is not among the sources). *)
Definition comparison_key (s : pystring) : pystring :=
  lower (strip (fun c => py_ispunct c || py_isspace c) s).

(** Modelled from the spec: a paragraph duplicates a line already present in
    the recipient block (step 2 of section 4.3). *)
Definition duplicates_recipient (block : list pystring) (p : pystring) : bool :=
  existsb (fun line => bool_decide (comparison_key line = comparison_key p))
    block.

(** Modelled from the spec: a clean line of the recipient block, without
    surrounding blanks and commas (step 3 of section 4.3). *)
Definition clean_line (s : pystring) : pystring :=
  strip (fun c => (c =? comma) || py_isspace c) s.

(** Modelled from the spec: step 3 of section 4.3, the
    [_normalize_recipient_block] of [llm_letter.py], which is not among the
    sources: the comma-separated parts of the lines become lines of their
    own, cleaned; empty ones go; at most three remain. *)
Definition normalize_recipient_block (block : list pystring) : list pystring :=
  take 3
    (filter (fun l => l <> [])
       (map clean_line (concat (map (split_on comma) block)))).

(** Modelled from the spec: the lines step 2 of section 4.3 compares a
    paragraph with: the lines of the recipient block as the letter has
    them, and as the sanitized letter will have them (section 3: after
    sanitization no trailing paragraph matches the recipient block). *)
Definition recipient_lines (block : list pystring) : list pystring :=
  block ++ normalize_recipient_block block.

Section Patterns.

(** The heuristics of section 4.3, which the spec names and leaves open: a
    paragraph that looks like a contact block (e-mail address, phone
    number, postal-address fragment), and a paragraph that is a name line. *)
Variable is_contact_block : pystring -> bool.
Variable is_name_line : pystring -> bool.

(** Modelled from the spec: step 1 of section 4.3 (in [llm_letter.py], not
    among the sources): the trailing contact paragraphs go, and with them a
    single name line immediately above them. *)
Definition strip_trailing_contact (body : list pystring) : list pystring :=
  let kept := drop_trailing is_contact_block body in
  if (length kept <? length body)%nat
  then
    match last kept with
    | Some p => if is_name_line p then removelast kept else kept
    | None => kept
    end
  else kept.

(** Modelled from the spec: step 2 of section 4.3 (in [llm_letter.py], not
    among the sources). *)
Definition strip_trailing_recipient (block : list pystring)
    (body : list pystring) : list pystring :=
  drop_trailing (duplicates_recipient block) body.

(** Modelled from the spec: one scan of the body from the end, step 1 and
    after it step 2 of section 4.3. *)
Definition scan (lines body : list pystring) : list pystring :=
  strip_trailing_recipient lines (strip_trailing_contact body).

(** Modelled from the spec: the scan from the end goes on for as long as it
    drops a paragraph, so that the body that is left does not end in a
    match, as the invariants of sections 3 and 4.3 ask.  A scan that drops
    something shortens the body, so the body's length bounds the number of
    scans; [fuel] is that bound. *)
Fixpoint scan_to_end (fuel : nat) (lines body : list pystring)
  : list pystring :=
  match fuel with
  | O => body
  | S fuel' =>
      let body' := scan lines body in
      if (length body' <? length body)%nat
      then scan_to_end fuel' lines body'
      else body
  end.

(** Modelled from the spec: [sanitize] of section 4.3 (in [llm_letter.py],
    not among the sources): the body is scanned from the end, and the
    recipient block normalized. *)
Definition sanitize (x : LetterContent) : LetterContent :=
  let body :=
    scan_to_end (length (bodyParagraphs x))
      (recipient_lines (recipientBlock x)) (bodyParagraphs x) in
  {| date := date x;
     recipientBlock := normalize_recipient_block (recipientBlock x);
     roleTitle := roleTitle x;
     company := company x;
     subject := subject x;
     salutation := salutation x;
     bodyParagraphs := body;
     closing := closing x;
     signatureName := signatureName x |}.

(** A run of dropped paragraphs in which each is a match: it looks like a
    contact block, or repeats a line of the recipient block, or is a name
    line with a contact block immediately below it. *)
Fixpoint matching_run (lines run : list pystring) : bool :=
  match run with
  | [] => true
  | p :: rest =>
      (is_contact_block p || duplicates_recipient lines p ||
       (is_name_line p &&
        match rest with q :: _ => is_contact_block q | [] => false end)) &&
      matching_run lines rest
  end.

(** A paragraph that matches none of the patterns. *)
Definition substantive (lines : list pystring) (p : pystring) : Prop :=
  is_contact_block p = false /\ is_name_line p = false /\
  duplicates_recipient lines p = false.

End Patterns.

(** A contact pattern for examples: a paragraph with an at sign, as an
    e-mail address has. *)
Definition has_at_sign (p : pystring) : bool := existsb (N.eqb 64) p.

Definition never (p : pystring) : bool := false.

(** A name-line pattern for examples: a short paragraph. *)
Definition short_line (p : pystring) : bool := (length p <=? 20)%nat.

End Sanitizer.

Module Generator.
Import Letter.

(** Modelled from the spec: what one call of the structured-generation
    service comes back as, seen from the parser (section 4.2 and the
    glossary): parsed fields, a response cut off by the token budget, or a
    response that does not parse for another reason. *)
Inductive Outcome :=
| Parsed (c : LetterContent)
| Truncated
| Unparsable.

(** Modelled from the spec: what [generate] of section 4.2 ends in, the
    letter's fields or the error of section 7. *)
Inductive Result :=
| Content (c : LetterContent)
| GenerationError.

(** What a run of the generator did: its result, the budgets of the calls
    it made, in order, and the service afterwards. *)
Record Run (Service : Type) := {
  result : Result;
  calls : list N;
  service : Service
}.
Arguments result {Service} _.
Arguments calls {Service} _.
Arguments service {Service} _.

Section Service.

(** The service, with whatever state it keeps between calls; a call takes a
    prompt and a token budget. *)
Variable Service : Type.
Variable Prompt : Type.
Variable request : Service -> Prompt -> N -> Outcome * Service.

(** The cap per length and the extra headroom of the retry. *)
Variable cap : GeneratorForm.Length -> N.
Variable headroom : positive.

(** Modelled from the spec: the larger budget of the retry, the budget of
    the first call and the headroom. *)
Definition retry_budget (b : N) : N := b + Npos headroom.

(** Modelled from the spec: the retry policy of section 4.2 (the generator
    is in [llm_letter.py], not among the sources). *)
Definition generate_within (s : Service) (p : Prompt) (b : N) : Run Service :=
  match request s p b with
  | (Parsed c, s1) => {| result := Content c; calls := [b]; service := s1 |}
  | (Unparsable, s1) =>
      {| result := GenerationError; calls := [b]; service := s1 |}
  | (Truncated, s1) =>
      let b' := retry_budget b in
      match request s1 p b' with
      | (Parsed c, s2) =>
          {| result := Content c; calls := [b; b']; service := s2 |}
      | (_, s2) =>
          {| result := GenerationError; calls := [b; b']; service := s2 |}
      end
  end.

(** Modelled from the spec: [generate] of section 4.2, with the budget its
    length option selects. *)
Definition generate (s : Service) (p : Prompt) (len : GeneratorForm.Length)
  : Run Service := generate_within s p (cap len).

End Service.

(** A service for examples: it counts its calls and answers from a script,
    and with a truncation once the script is used up. *)
Definition scripted (script : list Outcome) (n : nat) (_ : unit) (_ : N)
  : Outcome * nat := (default Truncated (script !! n), S n).

End Generator.

Module Renderer.
Import Letter.

(** Modelled from the spec: the document structure of section 9, as far as
    section 4.4 needs it (the renderer is [docx_render.py], not among the
    sources): paragraphs with their tab stops (the [w:tabs] element, which
    a paragraph may lack), their indent and their content. *)
Record TabStop := { tab_pos : N; tab_align : N }.

Inductive Inline :=
| Text (s : pystring)
| Tab
| Break.

Record Paragraph := {
  tabs : option (list TabStop);
  indent : N;
  runs : list Inline
}.

(** Modelled from the spec: a paragraph of the fixed template of section
    6: its layout, its literal content, and the placeholder it holds, if
    any, between the two. *)
Record TParagraph := {
  t_tabs : option (list TabStop);
  t_indent : N;
  t_lead : list Inline;
  t_hole : option string;
  t_trail : list Inline
}.

Abbreviation Template := (list TParagraph).

(** Modelled from the spec: what the renderer hands to the templating
    engine for a key: a string, the lines of a block, or the paragraphs of
    a listing. *)
Inductive Value :=
| VString (s : pystring)
| VLines (lines : list pystring)
| VParagraphs (ps : list pystring).

(** Modelled from the spec: the two ways section 4.4 sees the engine lay
    out the recipient block, as paragraphs or as one paragraph with line
    breaks. *)
Inductive Mode := SplitParagraphs | LineBreaks.

(** The paragraphs made from one paragraph of the template. *)
Record Block := { source : TParagraph; produced : list Paragraph }.

(** Modelled from the spec: the error of section 4.4, and the four
    placeholders section 6 requires of the template. *)
Inductive RenderError := MissingPlaceholder (key : string).

Definition required : list string :=
  ["date"; "recipient_address"; "role"; "body_of_motivational_letter"]%string.

Definition holds (key : string) (t : TParagraph) : bool :=
  bool_decide (t_hole t = Some key).

Definition is_recipient (b : Block) : bool :=
  holds "recipient_address" (source b).

Definition is_date (b : Block) : bool := holds "date" (source b).

(** Modelled from the spec: the context of section 4.4 that the renderer
    hands to the engine, for the keys whose value the letter's fields give
    (the dictionary is built in [docx_render.py], not among the sources). *)
Definition context (x : LetterContent) : gmap string Value :=
  list_to_map
    [("date", VString (date x));
     ("recipient_address", VLines (recipientBlock x));
     ("role", VString (roleTitle x));
     ("body_of_motivational_letter", VParagraphs (bodyParagraphs x));
     ("company", VString (company x));
     ("role_title", VString (roleTitle x));
     ("subject", VString (subject x));
     ("recipient_block", VLines (recipientBlock x));
     ("salutation", VString (salutation x));
     ("closing", VString (closing x));
     ("signature_name", VString (signatureName x));
     ("body_paragraphs", VParagraphs (bodyParagraphs x));
     ("body_listing", VParagraphs (bodyParagraphs x))]%string.

(** Modelled from the spec: the lines of a block in one paragraph, a line
    break between two of them (the single-paragraph case of section 4.4). *)
Fixpoint with_breaks (lines : list pystring) : list Inline :=
  match lines with
  | [] => []
  | [l] => [Text l]
  | l :: rest => Text l :: Break :: with_breaks rest
  end.

(** Modelled from the spec: a tab immediately after each line break (the
    second repair of section 4.4). *)
Fixpoint tab_after_breaks (rs : list Inline) : list Inline :=
  match rs with
  | [] => []
  | Break :: rest => Break :: Tab :: tab_after_breaks rest
  | r :: rest => r :: tab_after_breaks rest
  end.

Section Engine.

(** The templating engine: how it lays out a value of several lines, and
    the paragraph it synthesizes for an additional line of a paragraph of
    the template; nothing is assumed of the layout it gives that paragraph. *)
Variable mode : Mode.
Variable synthesize : TParagraph -> pystring -> Paragraph.

Definition in_place (t : TParagraph) (content : list Inline) : Paragraph :=
  {| tabs := t_tabs t; indent := t_indent t;
     runs := t_lead t ++ content ++ t_trail t |}.

(** Modelled from the spec: the engine on one paragraph of the template
    (the engine is the docxtpl library): a string is filled in place; of
    the paragraphs of a split value the first is the template's own
    paragraph and the others are synthesized; a key without a value leaves
    the placeholder empty. *)
Definition fill (x : LetterContent) (t : TParagraph) : list Paragraph :=
  let split ls :=
    match ls with
    | [] => [in_place t []]
    | l :: more => in_place t [Text l] :: map (synthesize t) more
    end in
  match t_hole t with
  | None => [in_place t []]
  | Some key =>
      match context x !! key with
      | None => [in_place t []]
      | Some (VString s) => [in_place t [Text s]]
      | Some (VParagraphs ps) => split ps
      | Some (VLines ls) =>
          match mode with
          | SplitParagraphs => split ls
          | LineBreaks => [in_place t (with_breaks ls)]
          end
      end
  end.

Definition fill_template (x : LetterContent) (tpl : Template) : list Block :=
  map (fun t => {| source := t; produced := fill x t |}) tpl.

(** The tab stops of the first recipient paragraph of the filled document. *)
Definition first_recipient_tabs (doc : list Block) : option (list TabStop) :=
  match filter is_recipient doc with
  | b :: _ => match produced b with p :: _ => tabs p | [] => None end
  | [] => None
  end.

(** The position of the first tab stop of the date paragraph. *)
Definition date_tab_position (doc : list Block) : option N :=
  match filter is_date doc with
  | b :: _ =>
      match produced b with
      | p :: _ =>
          match tabs p with
          | Some (ts :: _) => Some (tab_pos ts)
          | _ => None
          end
      | [] => None
      end
  | [] => None
  end.

(** Modelled from the spec: the three repairs of section 4.4 on the
    paragraphs of the recipient block. *)
Definition repair (doc : list Block) : list Block :=
  let ts := first_recipient_tabs doc in
  let pos := date_tab_position doc in
  map (fun b =>
         if is_recipient b
         then
           {| source := source b;
              produced :=
                map (fun p =>
                       {| tabs := ts;
                          indent := default (indent p) pos;
                          runs := tab_after_breaks (runs p) |})
                  (produced b) |}
         else b) doc.

(** Modelled from the spec: [render] of section 4.4: a template that lacks
    a required placeholder is refused; otherwise the engine fills it and the
    layout is repaired. *)
Definition render (tpl : Template) (x : LetterContent)
  : RenderError + list Block :=
  match filter (fun key => negb (existsb (holds key) tpl)) required with
  | key :: _ => inl (MissingPlaceholder key)
  | [] => inr (repair (fill_template x tpl))
  end.

End Engine.

(** The paragraphs of the emitted document that come from the recipient
    block, and the paragraphs of the template that hold it. *)
Definition recipient_paragraphs (doc : list Block) : list Paragraph :=
  concat (map produced (filter is_recipient doc)).

Definition first_recipient_paragraph (tpl : Template) : option TParagraph :=
  head (filter (holds "recipient_address") tpl).

End Renderer.

Module Resolver.

Inductive JobSource :=
| Url (u : pystring)
| Text (t : pystring).

Inductive ResolveError := ValidationError.

(** The value of a text field of a submitted form. *)
Definition field (name : jsstring) (form : GeneratorForm.FormData)
  : option pystring :=
  match find (fun kv => bool_decide (fst kv = name)) form with
  | Some (_, GeneratorForm.FormString s) => Some s
  | _ => None
  end.

(** Modelled from the spec: the job source of a generate request (sections
    3, 4.1 and 8; the endpoint of [apps/api] is not among the sources): a
    job text that is not empty is used, trimmed, whether or not there is a
    URL too; else the URL; with neither, the request is invalid. *)
Definition job_source (job_url job_text : option pystring)
  : ResolveError + JobSource :=
  let text := default [] job_text in
  let url := default [] job_url in
  if truthy text then inr (Text (strip py_isspace text))
  else if truthy url then inr (Url url)
  else inl ValidationError.

End Resolver.

(** ** What the statements below speak of *)

Module Matching.
Import ContentDisposition.

(** Equality up to the case of ASCII letters. *)
Definition same_ignoring_case (a b : jsstring) : Prop :=
  map canonicalize a = map canonicalize b.

(** The input begins with a double-quoted filename parameter whose value
    is [g]: the keyword in any case, a double quote, the non-empty value
    free of double quotes, and a double quote. *)
Definition parameter_at_head (s g : jsstring) : Prop :=
  exists kw post,
    s = kw ++ quote :: g ++ quote :: post /\
    same_ignoring_case kw keyword /\ g <> [] /\ (quote ∉ g).

(** The input has no double-quoted filename parameter anywhere. *)
Definition no_parameter (s : jsstring) : Prop :=
  forall pre tail g, s = pre ++ tail -> ~ parameter_at_head tail g.

(** No double-quoted filename parameter begins within the first [n]
    characters of the input. *)
Definition none_before (n : nat) (s : jsstring) : Prop :=
  forall pre tail g,
    s = pre ++ tail -> (length pre < n)%nat -> ~ parameter_at_head tail g.

(** A header value, possibly absent, without a double-quoted filename
    parameter. *)
Definition lacks_parameter (value : option jsstring) : Prop :=
  match value with
  | None => True
  | Some v => no_parameter v
  end.

End Matching.

(** The messages of the two refusals of the form. *)
Definition no_job_source : jsstring :=
  str "Please provide either a Job URL or Job Text.".

Definition job_text_is_set : jsstring :=
  str "Job text is set " ++ [8211] ++ str " role will be derived from it.".


(** A line that ends in a punctuation character. *)
Definition ends_in_punctuation (l : pystring) : bool :=
  match last l with
  | Some c => py_ispunct c
  | None => false
  end.

(** The prologue of an accepted [onGenerate]: the previous download, if
    there is one, is revoked. *)
Definition revoked (c : GeneratorForm.Component) : list GeneratorForm.Effect :=
  match GeneratorForm.state c with
  | GeneratorForm.GenDone downloadUrl _ =>
      [GeneratorForm.RevokeObjectURL downloadUrl]
  | _ => []
  end.

(** ** A platform and component states for examples *)

Module Demo.
Import GeneratorForm.

Definition JSON_parse (_ : jsstring) : option Json := None.

Definition URL_new (path base : jsstring) : Thrown + jsstring :=
  inr (base ++ path).

Definition createObjectURL (_ : Blob) : jsstring := str "blob:letter".

(** A server that answers every request: a document without a filename
    header worth the name, and a role. *)
Definition response : Response :=
  {| res_ok := true; res_status := 200; res_text := Some [];
     res_blob := inr [80; 75];
     res_json := inr (JObject [(str "role", JString (str "Engineer"))]);
     res_content_disposition := Some (str "attachment") |}.

Definition fetch (_ : jsstring) (_ : FormData) : Thrown + Response :=
  inr response.

Definition env : environment := ∅.

Definition with_sources (url text : jsstring) : Component :=
  {| jobUrl := url; jobText := text; cvFile := None;
     language := de; tone := professional; letterLength := short;
     targetRole := []; state := GenIdle; previewState := PrevIdle;
     downloadUrlRef := None |}.

Definition blank : Component := with_sources (str "  ") [10].

Definition both : Component :=
  with_sources (str "https://acme.example/jobs/1 ")
    (str "Senior Backend Engineer at Acme AG").

Definition text_only : Component :=
  with_sources [] (str "Senior Backend Engineer at Acme AG").

(** Letters. *)
Definition zurich : pystring := str "8001 Z" ++ [252] ++ str "rich".

Definition acme_block : list pystring :=
  [str "Acme AG"; str "Bahnhofstrasse 1"; zurich].

Definition acme_single_line : pystring :=
  str "Acme AG, Bahnhofstrasse 1, 8001 Z" ++ [252] ++ str "rich,".

Definition letter (block body : list pystring) : Letter.LetterContent :=
  {| Letter.date := str "2. November 2026";
     Letter.recipientBlock := block;
     Letter.roleTitle := str "Senior Backend Engineer";
     Letter.company := str "Acme AG";
     Letter.subject := str "Bewerbung als Senior Backend Engineer";
     Letter.salutation := str "Sehr geehrte Damen und Herren";
     Letter.bodyParagraphs := body;
     Letter.closing := str "Freundliche Gruesse";
     Letter.signatureName := str "Andri Heeb" |}.

Definition motivation : pystring :=
  str "Mit grossem Interesse habe ich Ihre Ausschreibung gelesen.".

Definition invitation : pystring :=
  str "Ueber eine Einladung zum Gespraech freue ich mich.".

Definition email : pystring := str "andri@example.com".

(** A template with the four required placeholders, each behind a tab, the
    date and the recipient block aligned by a tab stop; and an engine that
    gives the paragraphs it synthesizes no tab stops at all. *)
Definition stop : Renderer.TabStop :=
  {| Renderer.tab_pos := 5670; Renderer.tab_align := 0 |}.

Definition slot (stops : option (list Renderer.TabStop)) (key : string)
  : Renderer.TParagraph :=
  {| Renderer.t_tabs := stops; Renderer.t_indent := 0;
     Renderer.t_lead := [Renderer.Tab]; Renderer.t_hole := Some key;
     Renderer.t_trail := [] |}.

Definition template : Renderer.Template :=
  [slot (Some [stop]) "date"; slot (Some [stop]) "recipient_address";
   slot None "role"; slot None "body_of_motivational_letter"]%string.

Definition bare (_ : Renderer.TParagraph) (line : pystring)
  : Renderer.Paragraph :=
  {| Renderer.tabs := None; Renderer.indent := 0;
     Renderer.runs := [Renderer.Text line] |}.

End Demo.

(** ** [apps/web/src/components/ui/file-upload.tsx] *)

Module FileUpload.
Import GeneratorForm.

(** The widget's own state: the drag highlight, and the value of the hidden
    file input, when the input is mounted. *)
Record Upload := {
  isDragging : bool;
  inputValue : option jsstring
}.

(** What a handler of the widget does besides: it calls [onFileSelect], or
    opens the file dialog. *)
Inductive Call :=
| OnFileSelect (f : option File)
| Click.

(** The first file of a [FileList] that may be missing. *)
Definition first_file (files : option (list File)) : option File :=
  files ≫= head.

Definition handleDragOver (u : Upload) : Upload * list Call :=
  ({| isDragging := true; inputValue := inputValue u |}, []).

Definition handleDragLeave (u : Upload) : Upload * list Call :=
  ({| isDragging := false; inputValue := inputValue u |}, []).

Definition handleDrop (files : option (list File)) (u : Upload)
  : Upload * list Call :=
  ({| isDragging := false; inputValue := inputValue u |},
   match first_file files with
   | Some f => [OnFileSelect (Some f)]
   | None => []
   end).

Definition handleClick (u : Upload) : Upload * list Call :=
  (u, match inputValue u with Some _ => [Click] | None => [] end).

Definition handleRemove (u : Upload) : Upload * list Call :=
  ({| isDragging := isDragging u;
      inputValue := (fun _ => []) <$> inputValue u |},
   [OnFileSelect None]).

(** The input's [onChange]. *)
Definition onChange (files : option (list File)) (u : Upload)
  : Upload * list Call :=
  (u, [OnFileSelect (first_file files)]).

End FileUpload.

(** ** The form as a whole: its cells, the widget wired to them, and the
       clean-up on unmount *)

Module Session.
Import GeneratorForm.

Definition set_jobUrl (v : jsstring) (c : Component) : Component :=
  {| jobUrl := v; jobText := jobText c; cvFile := cvFile c;
     language := language c; tone := tone c; letterLength := letterLength c;
     targetRole := targetRole c; state := state c;
     previewState := previewState c; downloadUrlRef := downloadUrlRef c |}.

Definition set_jobText (v : jsstring) (c : Component) : Component :=
  {| jobUrl := jobUrl c; jobText := v; cvFile := cvFile c;
     language := language c; tone := tone c; letterLength := letterLength c;
     targetRole := targetRole c; state := state c;
     previewState := previewState c; downloadUrlRef := downloadUrlRef c |}.

Definition set_cvFile (f : option File) (c : Component) : Component :=
  {| jobUrl := jobUrl c; jobText := jobText c; cvFile := f;
     language := language c; tone := tone c; letterLength := letterLength c;
     targetRole := targetRole c; state := state c;
     previewState := previewState c; downloadUrlRef := downloadUrlRef c |}.

Definition set_language (l : Language) (c : Component) : Component :=
  {| jobUrl := jobUrl c; jobText := jobText c; cvFile := cvFile c;
     language := l; tone := tone c; letterLength := letterLength c;
     targetRole := targetRole c; state := state c;
     previewState := previewState c; downloadUrlRef := downloadUrlRef c |}.

Definition set_tone (t : Tone) (c : Component) : Component :=
  {| jobUrl := jobUrl c; jobText := jobText c; cvFile := cvFile c;
     language := language c; tone := t; letterLength := letterLength c;
     targetRole := targetRole c; state := state c;
     previewState := previewState c; downloadUrlRef := downloadUrlRef c |}.

Definition set_length (l : Length) (c : Component) : Component :=
  {| jobUrl := jobUrl c; jobText := jobText c; cvFile := cvFile c;
     language := language c; tone := tone c; letterLength := l;
     targetRole := targetRole c; state := state c;
     previewState := previewState c; downloadUrlRef := downloadUrlRef c |}.

(** The widget is given [setCvFile] as its [onFileSelect]. *)
Definition select (c : Component) (call : FileUpload.Call) : Component :=
  match call with
  | FileUpload.OnFileSelect f => set_cvFile f c
  | FileUpload.Click => c
  end.

(** What the browser and the network do during one run of a handler. *)
Record World := {
  w_JSON_parse : jsstring -> option Json;
  w_URL_new : jsstring -> jsstring -> Thrown + jsstring;
  w_createObjectURL : Blob -> jsstring;
  w_fetch : jsstring -> FormData -> Thrown + Response
}.

(** What the user does. *)
Inductive Action :=
| TypeJobUrl (v : jsstring)
| TypeJobText (v : jsstring)
| TypeTargetRole (v : jsstring)
| ChooseLanguage (l : Language)
| ChooseTone (t : Tone)
| ChooseLength (l : Length)
| Drop (files : option (list File))
| Pick (files : option (list File))
| Remove
| ClickGenerate (w : World)
| ClickAutofill (w : World).

Section Mounted.

(** The environment the component was mounted in: the API base URL is
    computed once. *)
Variable env : environment.

Definition upload_idle : FileUpload.Upload :=
  {| FileUpload.isDragging := false; FileUpload.inputValue := Some [] |}.

Definition step (c : Component) (a : Action) : Component :=
  match a with
  | TypeJobUrl v => set_jobUrl v c
  | TypeJobText v => set_jobText v c
  | TypeTargetRole v => set_targetRole v c
  | ChooseLanguage l => set_language l c
  | ChooseTone t => set_tone t c
  | ChooseLength l => set_length l c
  | Drop files =>
      foldl select c (snd (FileUpload.handleDrop files upload_idle))
  | Pick files =>
      foldl select c (snd (FileUpload.onChange files upload_idle))
  | Remove => foldl select c (snd (FileUpload.handleRemove upload_idle))
  | ClickGenerate w =>
      after c
        (onGenerate (w_JSON_parse w) (w_URL_new w) (w_createObjectURL w)
           (w_fetch w) env c)
  | ClickAutofill w =>
      after c
        (autofillRoleFromUrl (w_JSON_parse w) (w_URL_new w) (w_fetch w) env c)
  end.

Definition run (actions : list Action) : Component :=
  foldl step initial actions.

End Mounted.

(** The clean-up of the component's effect: the object URL the ref holds is
    revoked. *)
Definition unmount (c : Component) : list Effect :=
  match downloadUrlRef c with
  | Some u => if truthy u then [RevokeObjectURL u] else []
  | None => []
  end.

(** The file entry of a form. *)
Definition file_field (name : jsstring) (form : FormData) : option File :=
  match find (fun kv => bool_decide (fst kv = name)) form with
  | Some (_, FormFile f) => Some f
  | _ => None
  end.

(** The names of a form's entries, in order. *)
Definition names (form : FormData) : list jsstring := map fst form.

(** The target roles a run of a handler set. *)
Definition roles_set (log : list Effect) : list jsstring :=
  omap (fun e => match e with SetTargetRole r => Some r | _ => None end) log.

End Session.

(** A server that refuses: status 422 and a JSON body with a detail; and a
    parser that knows that one body. *)
Module Refusing.
Import GeneratorForm.

Definition detail : jsstring := str "job_url must be http or https".

(** The JSON text of an object with the one member [detail], a string:
    code unit 34 is the double quote. *)
Definition body : jsstring :=
  str "{" ++ [34] ++ str "detail" ++ [34] ++ str ":" ++
  [34] ++ detail ++ [34] ++ str "}".

Definition JSON_parse (b : jsstring) : option Json :=
  if bool_decide (b = body)
  then Some (JObject [(str "detail", JString detail)])
  else None.

Definition response : Response :=
  {| res_ok := false; res_status := 422; res_text := Some body;
     res_blob := inr []; res_json := inr JNull;
     res_content_disposition := None |}.

Definition fetch (_ : jsstring) (_ : FormData) : Thrown + Response :=
  inr response.

(** A gateway that times out, with a body that is no JSON. *)
Definition gateway : Response :=
  {| res_ok := false; res_status := 504; res_text := Some (str "timeout");
     res_blob := inr []; res_json := inr JNull;
     res_content_disposition := None |}.

Definition fetch_gateway (_ : jsstring) (_ : FormData) : Thrown + Response :=
  inr gateway.

End Refusing.

(** A session for examples: a text is typed, a CV dropped, the letter
    generated, and the role asked for. *)
Module DemoSession.
Import GeneratorForm Session.

Definition world : World :=
  {| w_JSON_parse := Demo.JSON_parse; w_URL_new := Demo.URL_new;
     w_createObjectURL := Demo.createObjectURL; w_fetch := Demo.fetch |}.

Definition cv : File := {| file_name := str "cv.pdf"; file_bytes := [37; 80] |}.

Definition photo : File :=
  {| file_name := str "photo.png"; file_bytes := [137; 80] |}.

Definition actions : list Action :=
  [TypeJobText (str "Senior Backend Engineer at Acme AG");
   Drop (Some [cv; photo]); ChooseLength short; ClickGenerate world;
   ClickAutofill world].

End DemoSession.

(** * Properties *)

(** A character that does not occur in a literal string. *)
Ltac absent_from_literal :=
  let H := fresh "H" in
  intros H; apply list_elem_of_In in H; vm_compute in H;
  intuition discriminate.

(** ** Trimming *)

Lemma trimStart_nil_iff (s : jsstring) :
  trimStart s = [] <-> forallb is_js_whitespace s = true.
Proof.
  induction s as [|c s IH]; simpl; [tauto|].
  destruct (is_js_whitespace c); simpl; [exact IH|].
  split; intros H; discriminate H.
Qed.

Lemma trim_nil_length (s : jsstring) :
  (length (trim s) =? 0)%nat = true <-> trim s = [].
Proof.
  rewrite Nat.eqb_eq. destruct (trim s); simpl; split; intros H;
    (reflexivity || discriminate H).
Qed.

Lemma trim_positive_length (s : jsstring) :
  (0 <? length (trim s))%nat = true <-> trim s <> [].
Proof.
  rewrite Nat.ltb_lt. destruct (trim s); simpl; split; intros H;
    (lia || congruence || (intros E; discriminate E)).
Qed.

(** ** Conversion to a [USVString] *)

(** The conversion of a string that is not empty is not empty. *)
Lemma to_usv_cons (c : N) (s : jsstring) :
  exists c' s', to_usv (c :: s) = c' :: s'.
Proof.
  simpl. destruct (is_high_surrogate c).
  - destruct s as [|d s]; [now eexists _, _|].
    destruct (is_low_surrogate d); now eexists _, _.
  - destruct (is_low_surrogate c); now eexists _, _.
Qed.

Lemma to_usv_truthy (s : jsstring) : truthy (to_usv s) = truthy s.
Proof.
  destruct s as [|c s]; [reflexivity|].
  now destruct (to_usv_cons c s) as (c' & s' & ->).
Qed.

Lemma to_usv_nil_iff (s : jsstring) : to_usv s = [] <-> s = [].
Proof.
  split; [|now intros ->]. destruct s as [|c s]; [reflexivity|].
  destruct (to_usv_cons c s) as (c' & s' & ->). discriminate.
Qed.

(** ** The Content-Disposition parser *)

Module ParserFacts.
Import ContentDisposition Matching.

Lemma match_literal_sound (pat s rest : jsstring) :
  match_literal pat s = Some rest ->
  exists kw, s = kw ++ rest /\ same_ignoring_case kw pat.
Proof.
  revert s. induction pat as [|p pat IH]; intros s H; simpl in H.
  - injection H as <-. exists []. split; reflexivity.
  - destruct s as [|c s]; [discriminate|].
    destruct (N.eqb_spec (canonicalize c) (canonicalize p)) as [E|]; [|discriminate].
    destruct (IH _ H) as (kw & -> & Hkw).
    exists (c :: kw). split; [reflexivity|].
    unfold same_ignoring_case in *. simpl. now rewrite E, Hkw.
Qed.

Lemma match_literal_complete (pat kw rest : jsstring) :
  same_ignoring_case kw pat -> match_literal pat (kw ++ rest) = Some rest.
Proof.
  unfold same_ignoring_case. revert kw.
  induction pat as [|p pat IH]; intros [|c kw] H; simpl in *; try discriminate.
  - reflexivity.
  - injection H as E H. rewrite E, N.eqb_refl. now apply IH.
Qed.

Lemma class_run_split (s : jsstring) :
  let '(g, rest) := class_run s in
  s = g ++ rest /\ (quote ∉ g) /\
  match rest with [] => True | c :: _ => c = quote end.
Proof.
  induction s as [|c s IH]; simpl.
  - rewrite elem_of_nil. tauto.
  - destruct (N.eqb_spec c quote) as [->|Hc].
    + simpl. rewrite elem_of_nil. tauto.
    + destruct (class_run s) as [g rest]. destruct IH as (-> & Hg & Hr).
      rewrite not_elem_of_cons. simpl. repeat split; auto.
Qed.

Lemma class_run_app (g post : jsstring) :
  quote ∉ g -> class_run (g ++ quote :: post) = (g, quote :: post).
Proof.
  induction g as [|c g IH]; intros Hg; simpl.
  - reflexivity.
  - apply not_elem_of_cons in Hg as [Hc Hg].
    destruct (N.eqb_spec quote c) as [E|_]; [congruence|].
    destruct (N.eqb_spec c quote) as [E|_]; [congruence|].
    now rewrite IH.
Qed.

Lemma canonicalize_quote (q : N) :
  canonicalize q = canonicalize quote -> q = quote.
Proof.
  unfold canonicalize, quote.
  destruct (97 <=? q) eqn:E1, (q <=? 122) eqn:E2; simpl; try lia.
  apply N.leb_le in E1, E2. lia.
Qed.

Lemma same_ignoring_case_quote (kwq pat : jsstring) :
  same_ignoring_case kwq (pat ++ [quote]) ->
  exists kw, kwq = kw ++ [quote] /\ same_ignoring_case kw pat.
Proof.
  unfold same_ignoring_case. intros H.
  destruct (exists_last (l := kwq)) as (kw & q & ->).
  { intros ->. rewrite map_app in H. simpl in H.
    symmetry in H. now apply app_eq_nil in H as [_ H]. }
  rewrite !map_app in H. simpl in H.
  apply app_inj_tail in H as [H Hq].
  apply canonicalize_quote in Hq as ->. now exists kw.
Qed.

(** One attempt of the pattern succeeds exactly on the inputs that begin
    with a parameter, and captures its value. *)
Lemma match_here_spec (s g : jsstring) :
  match_here s = Some g <-> parameter_at_head s g.
Proof.
  unfold match_here, parameter_at_head. split.
  - destruct (match_literal (keyword ++ [quote]) s) as [rest|] eqn:Hl;
      [|discriminate].
    apply match_literal_sound in Hl as (kwq & -> & Hkw).
    pose proof (class_run_split rest) as Hrun.
    destruct (class_run rest) as [g' rest']. destruct Hrun as (-> & Hg & Hr).
    destruct g' as [|c g']; [discriminate|].
    destruct rest' as [|q post]; [discriminate|]. subst q.
    rewrite N.eqb_refl. intros [= <-].
    apply same_ignoring_case_quote in Hkw as (kw & -> & Hkw).
    exists kw, post. rewrite <- app_assoc. auto.
  - intros (kw & post & -> & Hkw & Hne & Hg).
    replace (kw ++ quote :: g ++ quote :: post)
      with ((kw ++ [quote]) ++ g ++ quote :: post)
      by now rewrite <- app_assoc.
    rewrite match_literal_complete.
    + rewrite class_run_app by assumption.
      destruct g; [congruence|]. now rewrite N.eqb_refl.
    + unfold same_ignoring_case in *. now rewrite !map_app, Hkw.
Qed.

Lemma match_here_none (s : jsstring) :
  match_here s = None <-> forall g, ~ parameter_at_head s g.
Proof.
  split.
  - intros H g Hg. apply match_here_spec in Hg. congruence.
  - intros H. destruct (match_here s) as [g|] eqn:E; [|reflexivity].
    apply match_here_spec in E. now apply H in E.
Qed.

(** The value of the parameter an input begins with is determined. *)
Lemma parameter_at_head_unique (s g g' : jsstring) :
  parameter_at_head s g -> parameter_at_head s g' -> g = g'.
Proof.
  intros H H'. apply match_here_spec in H, H'. congruence.
Qed.

Lemma exec_unfold (s : jsstring) :
  exec s =
  match match_here s with
  | Some g => Some g
  | None => match s with [] => None | _ :: s' => exec s' end
  end.
Proof. destruct s; reflexivity. Qed.

(** The search finds nothing exactly on the inputs without a parameter. *)
Lemma exec_none (s : jsstring) : exec s = None <-> no_parameter s.
Proof.
  unfold no_parameter. induction s as [|c s IH]; simpl.
  - destruct (match_here []) eqn:E.
    + split; [discriminate|]. intros H. apply match_here_spec in E.
      now apply (H [] []) in E.
    + split; [|reflexivity]. intros _ pre tail g Hs.
      symmetry in Hs. apply app_eq_nil in Hs as [-> ->].
      now apply match_here_none.
  - destruct (match_here (c :: s)) as [g|] eqn:E.
    + split; [discriminate|]. intros H. apply match_here_spec in E.
      now apply (H [] (c :: s)) in E.
    + rewrite IH. split.
      * intros H [|c' pre] tail g Hs; simpl in Hs.
        -- subst tail. now apply match_here_none.
        -- injection Hs as -> ->. now apply (H pre tail g).
      * intros H pre tail g ->. now apply (H (c :: pre) tail g).
Qed.

(** The search returns the value of the leftmost parameter. *)
Lemma exec_leftmost (pre tail g : jsstring) :
  parameter_at_head tail g ->
  none_before (length pre) (pre ++ tail) ->
  exec (pre ++ tail) = Some g.
Proof.
  unfold none_before. induction pre as [|c pre IH]; intros Hm Hb.
  - apply match_here_spec in Hm. simpl app. now rewrite exec_unfold, Hm.
  - rewrite exec_unfold.
    destruct (match_here ((c :: pre) ++ tail)) as [g'|] eqn:E.
    + apply match_here_spec in E.
      exfalso. apply (Hb [] ((c :: pre) ++ tail) g');
        simpl; [reflexivity|lia|assumption].
    + simpl app. apply IH; [assumption|].
      intros pre' tail' g' Hs Hlen.
      apply (Hb (c :: pre') tail' g'); simpl; [now rewrite Hs|lia].
Qed.

End ParserFacts.

Module ParserClaims.
Import ContentDisposition Matching ParserFacts.

Lemma keyword_shape (kw : jsstring) :
  same_ignoring_case kw keyword -> length kw = length keyword /\ quote ∉ kw.
Proof.
  unfold same_ignoring_case. intros H. split.
  - apply (f_equal length) in H. now rewrite !length_map in H.
  - intros Hin. apply list_elem_of_In in Hin.
    apply (in_map canonicalize) in Hin. rewrite H in Hin.
    vm_compute in Hin. intuition discriminate.
Qed.

(** With no double quote before it, a parameter is the leftmost one. *)
Lemma none_before_quote_free (pre kw X post : jsstring) :
  quote ∉ pre ->
  same_ignoring_case kw keyword ->
  none_before (length pre) (pre ++ kw ++ quote :: X ++ quote :: post).
Proof.
  intros Hpre Hkw pre' tail' g Hs Hlen (kw' & post' & -> & Hkw' & _ & _).
  apply keyword_shape in Hkw as [Hl Hq].
  apply keyword_shape in Hkw' as [Hl' _].
  assert (Hsome :
    (pre ++ kw ++ quote :: X ++ quote :: post) !! (length (pre' ++ kw'))
    = Some quote).
  { rewrite Hs, (app_assoc pre' kw'). apply list_lookup_middle. reflexivity. }
  rewrite app_assoc, lookup_app_l in Hsome
    by (rewrite !length_app; lia).
  apply list_elem_of_lookup_2 in Hsome.
  apply elem_of_app in Hsome as [?|?]; contradiction.
Qed.

(** C7, as stated, fails: of two double-quoted filename parameters it is
    the first whose value is returned, so the value of the second, which the
    header contains just as well, is not. *)
Lemma parse_second_parameter_not_returned :
  let X := str "b.docx" in
  let pre := str "attachment; filename=" ++ [quote] ++ str "a.docx" ++
             [quote] ++ str "; " in
  let header := pre ++ keyword ++ [quote] ++ X ++ [quote] in
  X <> [] /\ (quote ∉ X) /\
  parseFilenameFromContentDisposition (Some header) = Some (str "a.docx") /\
  parseFilenameFromContentDisposition (Some header) <> Some X.
Proof.
  cbv zeta. split; [discriminate|]. split.
  - absent_from_literal.
  - split; [reflexivity|]. vm_compute. discriminate.
Qed.

Lemma parse_leftmost (pre kw X post : jsstring) :
  same_ignoring_case kw keyword ->
  X <> [] ->
  quote ∉ X ->
  none_before (length pre) (pre ++ kw ++ quote :: X ++ quote :: post) ->
  parseFilenameFromContentDisposition
    (Some (pre ++ kw ++ quote :: X ++ quote :: post)) = Some X.
Proof.
  intros Hkw Hne Hq Hb. unfold parseFilenameFromContentDisposition.
  assert (Hex : exec (pre ++ kw ++ quote :: X ++ quote :: post) = Some X).
  { apply exec_leftmost; [|assumption]. now exists kw, post. }
  rewrite Hex.
  destruct (pre ++ kw ++ quote :: X ++ quote :: post) eqn:E.
  - apply app_eq_nil in E as [_ E]. apply app_eq_nil in E as [_ E].
    discriminate E.
  - simpl. destruct X; [congruence|reflexivity].
Qed.

(** C7 (amended): for every header that contains a double-quoted filename
    parameter with a non-empty, quote-free value X (the keyword in any
    case) before which no other such parameter begins,
    parseFilenameFromContentDisposition returns exactly X. *)
Theorem parse_returns_leftmost_parameter (pre kw X post : jsstring) :
  same_ignoring_case kw keyword ->
  X <> [] ->
  quote ∉ X ->
  none_before (length pre) (pre ++ kw ++ quote :: X ++ quote :: post) ->
  parseFilenameFromContentDisposition
    (Some (pre ++ kw ++ quote :: X ++ quote :: post)) = Some X.
Proof. exact (parse_leftmost pre kw X post). Qed.

Lemma parse_returns_leftmost_parameter_witness :
  parseFilenameFromContentDisposition
    (Some (str "attachment; " ++ str "FileName=" ++ quote ::
           str "Motivationsschreiben_Acme AG_Andri_Heeb.docx" ++ quote ::
           str "; size=1"))
  = Some (str "Motivationsschreiben_Acme AG_Andri_Heeb.docx").
Proof.
  apply parse_returns_leftmost_parameter.
  - reflexivity.
  - discriminate.
  - absent_from_literal.
  - apply none_before_quote_free; [absent_from_literal|reflexivity].
Defined.

(** In particular the first double-quoted string of a header, when it is
    the value of a filename parameter, is what is returned. *)
Corollary parse_first_quoted_parameter (pre X post : jsstring) :
  quote ∉ pre -> X <> [] -> quote ∉ X ->
  parseFilenameFromContentDisposition
    (Some (pre ++ keyword ++ quote :: X ++ quote :: post)) = Some X.
Proof.
  intros Hpre Hne Hq. apply parse_leftmost; auto.
  - reflexivity.
  - now apply none_before_quote_free.
Qed.

(** The parser returns [null] exactly on the inputs that lack a parameter. *)
Lemma parse_none_iff (value : option jsstring) :
  parseFilenameFromContentDisposition value = None <-> lacks_parameter value.
Proof.
  unfold parseFilenameFromContentDisposition, lacks_parameter.
  destruct value as [v|]; [|tauto].
  destruct v as [|c v]; simpl negb; cbv iota.
  - split; [|reflexivity]. intros _. now apply exec_none.
  - rewrite <- exec_none. destruct (exec (c :: v)) as [g|] eqn:E.
    + assert (Hg : g <> []).
      { assert (Hex : exists pre tail, c :: v = pre ++ tail /\ match_here tail = Some g).
        { clear -E. revert E. generalize (c :: v). intros s.
          induction s as [|d s IH]; rewrite exec_unfold; intros E.
          - destruct (match_here []) eqn:M; [|discriminate].
            exists [], []. now rewrite M, <- E.
          - destruct (match_here (d :: s)) eqn:M.
            + exists [], (d :: s). now rewrite M, <- E.
            + destruct (IH E) as (pre & tail & -> & Ht).
              now exists (d :: pre), tail. }
        destruct Hex as (pre & tail & _ & Ht).
        apply match_here_spec in Ht as (? & ? & _ & _ & Hg & _). exact Hg. }
      destruct g; [congruence|]. simpl. split; discriminate.
    + tauto.
Qed.

End ParserClaims.

(** ** The API base URL *)

Module EnvClaims.

(** A string that trimming leaves alone and that is not empty is truthy. *)
Lemma truthy_length (r : jsstring) :
  truthy r && (0 <? length r)%nat = truthy r.
Proof. destruct r; reflexivity. Qed.

(** C9: when VERCEL is unset or empty and NEXT_PUBLIC_API_BASE_URL, if set,
    equals its own trimmed value, the older getApiBaseUrl and the current
    one return the same string, and that string is not empty. *)
Theorem getApiBaseUrl_versions_agree (env : environment) :
  (env !! "VERCEL"%string = None \/ env !! "VERCEL"%string = Some []) ->
  (forall v, env !! "NEXT_PUBLIC_API_BASE_URL"%string = Some v -> trim v = v) ->
  EnvLegacy.getApiBaseUrl env = Env.getApiBaseUrl env /\
  Env.getApiBaseUrl env <> [].
Proof.
  intros Hvercel Htrim.
  unfold EnvLegacy.getApiBaseUrl, Env.getApiBaseUrl. cbv zeta.
  assert (Hv : truthy_opt (env !! "VERCEL"%string) = false)
    by (destruct Hvercel as [-> | ->]; reflexivity).
  rewrite Hv.
  destruct (env !! "NEXT_PUBLIC_API_BASE_URL"%string) as [v|] eqn:E; simpl.
  - rewrite (Htrim v eq_refl), truthy_length.
    destruct v; simpl; split; (reflexivity || discriminate).
  - split; [reflexivity|discriminate].
Qed.

Lemma getApiBaseUrl_versions_agree_witness :
  let env : environment :=
    <["NEXT_PUBLIC_API_BASE_URL"%string := str "https://api.example.org"]>
      (<["VERCEL"%string := []]> ∅) in
  EnvLegacy.getApiBaseUrl env = Env.getApiBaseUrl env /\
  Env.getApiBaseUrl env <> [].
Proof.
  cbv zeta. apply getApiBaseUrl_versions_agree.
  - right. reflexivity.
  - intros v Hv. vm_compute in Hv. injection Hv as <-. reflexivity.
Defined.

(** On Vercel the two part ways: the older one falls back to localhost. *)
Example getApiBaseUrl_on_vercel :
  let env : environment := <["VERCEL"%string := str "1"]> ∅ in
  EnvLegacy.getApiBaseUrl env = localhost /\
  Env.getApiBaseUrl env = production.
Proof. split; reflexivity. Qed.

(** Untrimmed, the older one returns the blanks as well. *)
Example getApiBaseUrl_untrimmed :
  let env : environment :=
    <["NEXT_PUBLIC_API_BASE_URL"%string := str " http://a "]> ∅ in
  EnvLegacy.getApiBaseUrl env = str " http://a " /\
  Env.getApiBaseUrl env = str "http://a".
Proof. split; reflexivity. Qed.

End EnvClaims.

(** ** The form's handlers *)

Module FormClaims.
Import GeneratorForm.

(** One step of a [try] body. *)
Ltac run_try :=
  cbn [mbind Try_bind mret Try_ret ret throw await perform try_catch
       negb app].

Section Platform.

Variable JSON_parse : jsstring -> option Json.
Variable URL_new : jsstring -> jsstring -> Thrown + jsstring.
Variable createObjectURL : Blob -> jsstring.
Variable fetch : jsstring -> FormData -> Thrown + Response.
Variable env : environment.

Local Abbreviation onGenerate :=
  (onGenerate JSON_parse URL_new createObjectURL fetch env).
Local Abbreviation autofillRoleFromUrl :=
  (autofillRoleFromUrl JSON_parse URL_new fetch env).

(** C1: when the trimmed job URL and the trimmed job text are both empty,
    onGenerate sets the error state with its message and does nothing
    else: no request is sent. *)
Theorem onGenerate_without_job_source (c : Component) :
  trim (jobUrl c) = [] ->
  trim (jobText c) = [] ->
  onGenerate c = [SetState (GenError no_job_source)] /\
  requests (onGenerate c) = [] /\
  state (after c (onGenerate c)) = GenError no_job_source.
Proof.
  intros Hu Ht.
  assert (E : onGenerate c = [SetState (GenError no_job_source)]).
  { unfold GeneratorForm.onGenerate. now rewrite Hu, Ht. }
  rewrite E. repeat split.
Qed.

Lemma onGenerate_accepted (c : Component) :
  trim (jobUrl c) <> [] \/ trim (jobText c) <> [] ->
  (length (trim (jobUrl c)) =? 0)%nat && (length (trim (jobText c)) =? 0)%nat
  = false.
Proof.
  intros [H|H]; apply andb_false_iff; [left|right];
    apply Nat.eqb_neq; destruct (trim _); simpl; congruence.
Qed.

Lemma requests_app (l1 l2 : list Effect) :
  requests (l1 ++ l2) = requests l1 ++ requests l2.
Proof. apply filter_app. Qed.

Lemma states_set_app (l1 l2 : list Effect) :
  states_set (l1 ++ l2) = states_set l1 ++ states_set l2.
Proof. apply omap_app. Qed.

Lemma revoked_quiet (c : Component) :
  requests (revoked c) = [] /\ states_set (revoked c) = [].
Proof. unfold revoked. destruct (state c); split; reflexivity. Qed.

(** Once the target URL is built, an accepted submission sends exactly one
    request, with the form. *)
Lemma onGenerate_requests (c : Component) (url : jsstring) :
  trim (jobUrl c) <> [] \/ trim (jobText c) <> [] ->
  URL_new (str "/v1/generate") (apiBaseUrl env) = inr url ->
  requests (onGenerate c) = [Fetch url (generate_form c)].
Proof.
  intros Hacc Hurl. unfold GeneratorForm.onGenerate, fetchOk.
  rewrite (onGenerate_accepted c Hacc), Hurl.
  fold (revoked c). rewrite requests_app.
  destruct (revoked_quiet c) as [-> _].
  run_try. destruct (fetch url (generate_form c)) as [e|res]; [reflexivity|].
  run_try. destruct (res_ok res); [|reflexivity].
  run_try. destruct (res_blob res); reflexivity.
Qed.

Lemma field_generate_form (c : Component) :
  trim (jobUrl c) <> [] -> trim (jobText c) <> [] ->
  Resolver.field (str "job_url") (generate_form c)
    = Some (to_usv (trim (jobUrl c))) /\
  Resolver.field (str "job_text") (generate_form c)
    = Some (to_usv (trim (jobText c))).
Proof.
  intros Hu Ht. unfold generate_form, append.
  apply trim_positive_length in Hu, Ht. rewrite Hu, Ht.
  destruct (cvFile c), (0 <? length (trim (targetRole c)))%nat;
    split; reflexivity.
Qed.

(** C6 (amended): when the job URL and the job text are both non-empty after
    trimming, the generate submission is accepted and sends both fields
    (each the trimmed input, as the USVString the form stores),
    of which the job text is the one generation uses; the form's URL-based
    preview is not performed: autofillRoleFromUrl sets its error message
    and sends no request. *)
Theorem both_sources_generate_but_no_preview (c : Component) :
  trim (jobUrl c) <> [] ->
  trim (jobText c) <> [] ->
  (exists rest,
     onGenerate c = revoked c ++ SetState GenLoading :: rest) /\
  (forall url,
     URL_new (str "/v1/generate") (apiBaseUrl env) = inr url ->
     requests (onGenerate c) = [Fetch url (generate_form c)]) /\
  Resolver.field (str "job_url") (generate_form c)
    = Some (to_usv (trim (jobUrl c))) /\
  Resolver.field (str "job_text") (generate_form c)
    = Some (to_usv (trim (jobText c))) /\
  Resolver.job_source
    (Resolver.field (str "job_url") (generate_form c))
    (Resolver.field (str "job_text") (generate_form c))
  = inr (Resolver.Text (strip py_isspace (to_usv (trim (jobText c))))) /\
  autofillRoleFromUrl c = [SetPreviewState (PrevError job_text_is_set)] /\
  requests (autofillRoleFromUrl c) = [].
Proof.
  intros Hu Ht.
  destruct (field_generate_form c Hu Ht) as [Fu Ft].
  assert (Hauto :
    autofillRoleFromUrl c = [SetPreviewState (PrevError job_text_is_set)]).
  { unfold GeneratorForm.autofillRoleFromUrl.
    apply trim_positive_length in Ht. rewrite Ht.
    destruct (trim (jobUrl c)); [congruence|reflexivity]. }
  split; [|split; [|split; [|split; [|split; [|split]]]]].
  - unfold GeneratorForm.onGenerate.
    rewrite (onGenerate_accepted c (or_introl Hu)). fold (revoked c).
    eexists. reflexivity.
  - intros url. apply onGenerate_requests. now left.
  - exact Fu.
  - exact Ft.
  - rewrite Fu, Ft. unfold Resolver.job_source.
    cbn [from_option id]. rewrite to_usv_truthy.
    destruct (trim (jobText c)); [congruence|reflexivity].
  - exact Hauto.
  - now rewrite Hauto.
Qed.

(** A response whose header gives no filename is offered for download
    under the fallback name. *)
Lemma onGenerate_fallback (c : Component) (url : jsstring) (res : Response)
    (blob : Blob) :
  trim (jobUrl c) <> [] \/ trim (jobText c) <> [] ->
  URL_new (str "/v1/generate") (apiBaseUrl env) = inr url ->
  fetch url (generate_form c) = inr res ->
  res_ok res = true ->
  res_blob res = inr blob ->
  ContentDisposition.parseFilenameFromContentDisposition
    (res_content_disposition res) = None ->
  states_set (onGenerate c) =
    [GenLoading; GenDone (createObjectURL blob) (str "Cover_Letter.docx")].
Proof.
  intros Hacc Hurl Hres Hok Hblob Hnone.
  unfold GeneratorForm.onGenerate, fetchOk.
  rewrite (onGenerate_accepted c Hacc), Hurl.
  fold (revoked c). rewrite states_set_app.
  destruct (revoked_quiet c) as [_ ->].
  run_try. rewrite Hres. run_try. rewrite Hok. run_try. rewrite Hblob. run_try. rewrite Hnone.
  reflexivity.
Qed.

End Platform.

(** C6, as stated, fails: with a job URL and a job text the preview is not
    performed; the handler refuses, although the server would answer. *)
Lemma preview_refused_when_job_text_is_set :
  trim (jobUrl Demo.both) <> [] /\
  trim (jobText Demo.both) <> [] /\
  autofillRoleFromUrl Demo.JSON_parse Demo.URL_new Demo.fetch Demo.env
    Demo.both
  = [SetPreviewState (PrevError job_text_is_set)] /\
  requests
    (autofillRoleFromUrl Demo.JSON_parse Demo.URL_new Demo.fetch Demo.env
       Demo.both) = [] /\
  requests
    (autofillRoleFromUrl Demo.JSON_parse Demo.URL_new Demo.fetch Demo.env
       (Demo.with_sources (jobUrl Demo.both) [])) <> [].
Proof.
  split; [discriminate|]. split; [discriminate|].
  split; [reflexivity|]. split; [reflexivity|]. discriminate.
Qed.

Lemma onGenerate_without_job_source_witness :
  onGenerate Demo.JSON_parse Demo.URL_new Demo.createObjectURL Demo.fetch
    Demo.env Demo.blank = [SetState (GenError no_job_source)] /\
  requests
    (onGenerate Demo.JSON_parse Demo.URL_new Demo.createObjectURL Demo.fetch
       Demo.env Demo.blank) = [] /\
  state
    (after Demo.blank
       (onGenerate Demo.JSON_parse Demo.URL_new Demo.createObjectURL
          Demo.fetch Demo.env Demo.blank)) = GenError no_job_source.
Proof.
  apply (onGenerate_without_job_source Demo.JSON_parse Demo.URL_new
           Demo.createObjectURL Demo.fetch Demo.env Demo.blank);
    reflexivity.
Defined.

Lemma both_sources_generate_but_no_preview_witness :
  autofillRoleFromUrl Demo.JSON_parse Demo.URL_new Demo.fetch Demo.env
    Demo.both
  = [SetPreviewState (PrevError job_text_is_set)] /\
  Resolver.job_source
    (Resolver.field (str "job_url") (generate_form Demo.both))
    (Resolver.field (str "job_text") (generate_form Demo.both))
  = inr (Resolver.Text (str "Senior Backend Engineer at Acme AG")).
Proof.
  pose proof (both_sources_generate_but_no_preview Demo.JSON_parse
                Demo.URL_new Demo.createObjectURL Demo.fetch Demo.env
                Demo.both) as H.
  destruct H as (_ & _ & _ & _ & Hsrc & Hauto & _);
    [discriminate|discriminate|].
  split; [exact Hauto|exact Hsrc].
Defined.

(** C10: on an input that is null or has no double-quoted filename
    parameter, parseFilenameFromContentDisposition returns null (it is
    total: nothing is thrown), and a generate flow that received such a
    header offers the download as Cover_Letter.docx. *)
Theorem missing_filename_falls_back (value : option jsstring) :
  Matching.lacks_parameter value ->
  ContentDisposition.parseFilenameFromContentDisposition value = None /\
  forall JSON_parse URL_new createObjectURL fetch env
         (c : Component) (url : jsstring) (res : Response) (blob : Blob),
    trim (jobUrl c) <> [] \/ trim (jobText c) <> [] ->
    URL_new (str "/v1/generate") (apiBaseUrl env) = inr url ->
    fetch url (generate_form c) = inr res ->
    res_ok res = true ->
    res_blob res = inr blob ->
    res_content_disposition res = value ->
    states_set (onGenerate JSON_parse URL_new createObjectURL fetch env c) =
      [GenLoading; GenDone (createObjectURL blob) (str "Cover_Letter.docx")].
Proof.
  intros Hlack. apply ParserClaims.parse_none_iff in Hlack.
  split; [exact Hlack|].
  intros JSON_parse URL_new createObjectURL fetch env c url res blob
    Hacc Hurl Hres Hok Hblob Hcd.
  apply (onGenerate_fallback _ _ _ _ _ c url res blob); auto.
  now rewrite Hcd.
Qed.

Lemma missing_filename_falls_back_witness :
  ContentDisposition.parseFilenameFromContentDisposition
    (Some (str "attachment")) = None /\
  states_set
    (onGenerate Demo.JSON_parse Demo.URL_new Demo.createObjectURL Demo.fetch
       Demo.env Demo.text_only) =
    [GenLoading; GenDone (str "blob:letter") (str "Cover_Letter.docx")].
Proof.
  assert (Hlack : Matching.lacks_parameter (Some (str "attachment"))).
  { apply ParserFacts.exec_none. reflexivity. }
  destruct (missing_filename_falls_back _ Hlack) as [Hnone Hflow].
  split; [exact Hnone|].
  apply (Hflow Demo.JSON_parse Demo.URL_new Demo.createObjectURL Demo.fetch
           Demo.env Demo.text_only
           (str "http://localhost:8000/v1/generate") Demo.response [80; 75]).
  - right. discriminate.
  - reflexivity.
  - reflexivity.
  - reflexivity.
  - reflexivity.
  - reflexivity.
Defined.

(** A header whose keyword is in capitals does give the filename. *)
Example parse_capitals :
  ContentDisposition.parseFilenameFromContentDisposition
    (Some (str "attachment; FILENAME=" ++ [34] ++ str "x.docx" ++ [34]))
  = Some (str "x.docx").
Proof. reflexivity. Qed.

(** An empty value between the quotes is no parameter. *)
Example parse_empty_value :
  ContentDisposition.parseFilenameFromContentDisposition
    (Some (str "attachment; filename=" ++ [34; 34])) = None.
Proof. reflexivity. Qed.

End FormClaims.

(** ** Scanning from the end *)

Module TrailingFacts.

Section Trailing.
Context {A : Type} (P : A -> bool).

Lemma drop_trailing_unfold (x : A) (l : list A) :
  drop_trailing P (x :: l) =
  match drop_trailing P l with
  | [] => if P x then [] else [x]
  | y :: r => x :: y :: r
  end.
Proof. reflexivity. Qed.

(** What is dropped is a run at the end, all of it satisfying [P]. *)
Lemma drop_trailing_run (l : list A) :
  exists run, l = drop_trailing P l ++ run /\ forallb P run = true.
Proof.
  induction l as [|x l (run & Hl & Hrun)].
  - exists []. split; reflexivity.
  - rewrite drop_trailing_unfold.
    destruct (drop_trailing P l) as [|y r] eqn:E.
    + simpl in Hl. subst run. destruct (P x) eqn:Px.
      * exists (x :: l). simpl. now rewrite Px.
      * exists l. split; [reflexivity|assumption].
    + exists run. split; [|assumption]. simpl. now rewrite Hl at 1.
Qed.

Lemma drop_trailing_prefix (l : list A) : drop_trailing P l `prefix_of` l.
Proof. destruct (drop_trailing_run l) as (run & H & _). now exists run. Qed.

(** What remains does not end in an element satisfying [P]. *)
Lemma drop_trailing_last (l : list A) (x : A) :
  last (drop_trailing P l) = Some x -> P x = false.
Proof.
  induction l as [|y l IH]; [discriminate|].
  rewrite drop_trailing_unfold.
  destruct (drop_trailing P l) as [|z r] eqn:E.
  - destruct (P y) eqn:Py; [discriminate|]. intros [= <-]. exact Py.
  - intros H. apply IH. exact H.
Qed.

(** A list that does not end in an element satisfying [P] is left alone. *)
Lemma drop_trailing_fixed (l : list A) :
  (forall x, last l = Some x -> P x = false) -> drop_trailing P l = l.
Proof.
  induction l as [|y l IH]; [reflexivity|]. intros H.
  rewrite drop_trailing_unfold. destruct l as [|z l].
  - simpl. now rewrite (H y eq_refl).
  - rewrite IH; [reflexivity|]. intros x Hx. apply H. exact Hx.
Qed.

Lemma drop_trailing_fixed_iff (l : list A) :
  drop_trailing P l = l <-> (forall x, last l = Some x -> P x = false).
Proof.
  split; [|apply drop_trailing_fixed].
  intros E x Hx. rewrite <- E in Hx. now apply drop_trailing_last in Hx.
Qed.

Lemma drop_trailing_idempotent (l : list A) :
  drop_trailing P (drop_trailing P l) = drop_trailing P l.
Proof. apply drop_trailing_fixed, drop_trailing_last. Qed.


Lemma drop_trailing_same_length (l : list A) :
  length (drop_trailing P l) = length l -> drop_trailing P l = l.
Proof.
  intros H. destruct (drop_trailing_run l) as (run & E & _).
  rewrite E in H at 2. rewrite length_app in H.
  destruct run; [|simpl in H; lia]. now rewrite app_nil_r in E.
Qed.


Lemma drop_leading_head (l : list A) (x : A) :
  head (drop_leading P l) = Some x -> P x = false.
Proof.
  induction l as [|y l IH]; simpl; [discriminate|].
  destruct (P y) eqn:Py; [exact IH|]. intros [= <-]. exact Py.
Qed.

Lemma drop_leading_fixed (l : list A) :
  (forall x, head l = Some x -> P x = false) -> drop_leading P l = l.
Proof.
  destruct l as [|y l]; [reflexivity|]. intros H. simpl.
  now rewrite (H y eq_refl).
Qed.

End Trailing.

Lemma removelast_prefix {A} (l : list A) : removelast l `prefix_of` l.
Proof.
  induction l as [|x l IH]; [reflexivity|].
  destruct l as [|y l]; [apply prefix_nil|].
  change (removelast (x :: y :: l)) with (x :: removelast (y :: l)).
  now apply prefix_cons.
Qed.

End TrailingFacts.

(** ** The recipient block's normal form *)

Module NormalizeFacts.
Import Sanitizer TrailingFacts.



Section Strip.
Variable P : N -> bool.


Lemma strip_ends (s : pystring) :
  (forall x, head (strip P s) = Some x -> P x = false) /\
  (forall x, last (strip P s) = Some x -> P x = false).
Proof.
  unfold strip. split; intros x Hx.
  - destruct (drop_trailing_prefix P (drop_leading P s)) as [k Hk].
    apply (drop_leading_head P s). rewrite Hk.
    destruct (drop_trailing P (drop_leading P s)); [discriminate|exact Hx].
  - now apply drop_trailing_last in Hx.
Qed.

Lemma strip_fixed (s : pystring) :
  (forall x, head s = Some x -> P x = false) ->
  (forall x, last s = Some x -> P x = false) ->
  strip P s = s.
Proof.
  intros Hh Hl. unfold strip.
  rewrite (drop_leading_fixed P s Hh). now apply drop_trailing_fixed.
Qed.

Lemma strip_idempotent (s : pystring) : strip P (strip P s) = strip P s.
Proof. destruct (strip_ends s). now apply strip_fixed. Qed.

End Strip.





End NormalizeFacts.

(** ** The sanitizer *)

Module SanitizerClaims.
Import Letter Sanitizer TrailingFacts NormalizeFacts.


Section Patterns.
Variable is_contact_block : pystring -> bool.
Variable is_name_line : pystring -> bool.

Local Abbreviation strip_trailing_contact :=
  (strip_trailing_contact is_contact_block is_name_line).
Local Abbreviation scan := (scan is_contact_block is_name_line).
Local Abbreviation scan_to_end := (scan_to_end is_contact_block is_name_line).
Local Abbreviation sanitize := (sanitize is_contact_block is_name_line).
Local Abbreviation matching_run :=
  (matching_run is_contact_block is_name_line).
Local Abbreviation substantive := (substantive is_contact_block is_name_line).

Lemma strip_trailing_contact_prefix (body : list pystring) :
  strip_trailing_contact body `prefix_of` body.
Proof.
  unfold Sanitizer.strip_trailing_contact.
  pose proof (drop_trailing_prefix is_contact_block body) as Hk.
  destruct (_ <? _)%nat; [|exact Hk].
  destruct (last _) as [p|]; [|exact Hk].
  destruct (is_name_line p); [|exact Hk].
  etransitivity; [apply removelast_prefix|exact Hk].
Qed.

Lemma strip_trailing_contact_fixed (body : list pystring) :
  (forall p, last body = Some p -> is_contact_block p = false) ->
  strip_trailing_contact body = body.
Proof.
  intros H. unfold Sanitizer.strip_trailing_contact.
  rewrite (drop_trailing_fixed _ _ H).
  now rewrite Nat.ltb_irrefl.
Qed.

Lemma strip_trailing_recipient_prefix (lines body : list pystring) :
  strip_trailing_recipient lines body `prefix_of` body.
Proof. apply drop_trailing_prefix. Qed.

(** *** One scan *)

Lemma scan_prefix (lines body : list pystring) :
  scan lines body `prefix_of` body.
Proof.
  unfold Sanitizer.scan.
  etransitivity; [apply strip_trailing_recipient_prefix|].
  apply strip_trailing_contact_prefix.
Qed.

Lemma scan_length (lines body : list pystring) :
  (length (scan lines body) <= length body)%nat.
Proof. apply prefix_length, scan_prefix. Qed.

(** A body whose last paragraph neither looks like a contact block nor
    repeats a line is left as it is. *)
Lemma scan_fixed (lines body : list pystring) :
  (forall p, last body = Some p ->
             is_contact_block p = false /\
             duplicates_recipient lines p = false) ->
  scan lines body = body.
Proof.
  intros H. unfold Sanitizer.scan. rewrite strip_trailing_contact_fixed.
  - apply drop_trailing_fixed. intros p Hp. now apply H.
  - intros p Hp. now apply H.
Qed.


(** *** The scans, to the end *)

Lemma scan_to_end_prefix (fuel : nat) (lines body : list pystring) :
  scan_to_end fuel lines body `prefix_of` body.
Proof.
  revert body. induction fuel as [|fuel IH]; intros body; simpl;
    [reflexivity|].
  destruct (_ <? _)%nat; [|reflexivity].
  etransitivity; [apply IH|apply scan_prefix].
Qed.

(** A body the scan leaves alone is what the scans return, with any fuel. *)
Lemma scan_to_end_fixed (fuel : nat) (lines body : list pystring) :
  scan lines body = body -> scan_to_end fuel lines body = body.
Proof.
  intros E. destruct fuel as [|fuel]; simpl; [reflexivity|].
  now rewrite E, Nat.ltb_irrefl.
Qed.


(** More fuel than the body's length changes nothing. *)
Lemma scan_to_end_fuel (fuel fuel' : nat) (lines body : list pystring) :
  (length body <= fuel)%nat -> (length body <= fuel')%nat ->
  scan_to_end fuel lines body = scan_to_end fuel' lines body.
Proof.
  revert fuel' body. induction fuel as [|fuel IH]; intros fuel' body H H'.
  - destruct body; [|simpl in H; lia]. symmetry.
    apply scan_to_end_fixed, prefix_nil_inv, scan_prefix.
  - destruct fuel' as [|fuel'].
    + destruct body; [|simpl in H'; lia].
      apply scan_to_end_fixed, prefix_nil_inv, scan_prefix.
    + simpl. pose proof (scan_length lines body) as Hs.
      destruct (_ <? _)%nat eqn:Hlt; [|reflexivity].
      apply Nat.ltb_lt in Hlt. apply IH; lia.
Qed.

(** *** What is dropped *)

Lemma matching_run_app (lines run run' : list pystring) :
  matching_run lines run = true -> matching_run lines run' = true ->
  matching_run lines (run ++ run') = true.
Proof.
  intros H H'. induction run as [|p rest IH]; [exact H'|].
  simpl in H. apply andb_true_iff in H as [Hp Hrest].
  change ((p :: rest) ++ run') with (p :: (rest ++ run')).
  cbn [Sanitizer.matching_run]. rewrite (IH Hrest), andb_true_r.
  destruct rest as [|q rest]; [|exact Hp].
  rewrite andb_false_r, orb_false_r in Hp. rewrite Hp. reflexivity.
Qed.

Lemma matching_run_contact (lines run : list pystring) :
  forallb is_contact_block run = true -> matching_run lines run = true.
Proof.
  induction run as [|p rest IH]; [reflexivity|]. simpl.
  intros H. apply andb_true_iff in H as [-> Hrest].
  now rewrite (IH Hrest).
Qed.

Lemma matching_run_recipient (lines run : list pystring) :
  forallb (duplicates_recipient lines) run = true ->
  matching_run lines run = true.
Proof.
  induction run as [|p rest IH]; [reflexivity|]. simpl.
  intros H. apply andb_true_iff in H as [-> Hrest].
  rewrite (IH Hrest). now rewrite orb_true_r.
Qed.

(** Every paragraph of a matching run matches one of the patterns. *)
Lemma matching_run_elem (lines run : list pystring) (p : pystring) :
  matching_run lines run = true -> p ∈ run -> ~ substantive lines p.
Proof.
  intros H Hp (Hc & Hn & Hd).
  induction run as [|q rest IH]; [now apply elem_of_nil in Hp|].
  simpl in H. apply andb_true_iff in H as [Hq Hrest].
  apply elem_of_cons in Hp as [<-|Hp]; [|now apply IH].
  rewrite Hc, Hn, Hd in Hq. discriminate Hq.
Qed.

Lemma strip_trailing_contact_run (lines body : list pystring) :
  exists run,
    body = strip_trailing_contact body ++ run /\
    matching_run lines run = true.
Proof.
  unfold Sanitizer.strip_trailing_contact.
  destruct (drop_trailing_run is_contact_block body) as (run & E & Hrun).
  set (kept := drop_trailing is_contact_block body) in *.
  assert (Hplain : exists run0,
            body = kept ++ run0 /\ matching_run lines run0 = true).
  { exists run. split; [exact E|now apply matching_run_contact]. }
  destruct (_ <? _)%nat eqn:Hlt; [|exact Hplain].
  destruct (last kept) as [p|] eqn:Hlast; [|exact Hplain].
  destruct (is_name_line p) eqn:Hname; [|exact Hplain].
  apply last_Some in Hlast as [kept' Hkept].
  apply Nat.ltb_lt in Hlt.
  pose proof (f_equal length E) as El. rewrite length_app in El.
  destruct run as [|q run]; [simpl in El; lia|].
  exists (p :: q :: run). split.
  - rewrite Hkept, removelast_last. rewrite E at 1. rewrite Hkept.
    now rewrite <- app_assoc.
  - simpl in Hrun. apply andb_true_iff in Hrun as [Hq Hrun].
    cbn [Sanitizer.matching_run]. rewrite Hname, Hq.
    rewrite (matching_run_contact lines run Hrun).
    cbn. now rewrite orb_true_r.
Qed.

Lemma scan_run (lines body : list pystring) :
  exists run,
    body = scan lines body ++ run /\ matching_run lines run = true.
Proof.
  unfold Sanitizer.scan, strip_trailing_recipient.
  destruct (strip_trailing_contact_run lines body) as (run1 & E1 & H1).
  destruct (drop_trailing_run (duplicates_recipient lines)
              (strip_trailing_contact body)) as (run2 & E2 & H2).
  exists (run2 ++ run1). split.
  - rewrite app_assoc, <- E2. exact E1.
  - apply matching_run_app; [now apply matching_run_recipient|exact H1].
Qed.

Lemma scan_to_end_run (fuel : nat) (lines body : list pystring) :
  exists run,
    body = scan_to_end fuel lines body ++ run /\
    matching_run lines run = true.
Proof.
  revert body. induction fuel as [|fuel IH]; intros body; simpl.
  - exists []. split; [now rewrite app_nil_r|reflexivity].
  - destruct (_ <? _)%nat.
    + destruct (scan_run lines body) as (run1 & E1 & H1).
      destruct (IH (scan lines body)) as (run2 & E2 & H2).
      exists (run2 ++ run1). split.
      * rewrite app_assoc, <- E2. exact E1.
      * now apply matching_run_app.
    + exists []. split; [now rewrite app_nil_r|reflexivity].
Qed.

(** *** [sanitize] *)

Lemma sanitize_body_prefix (x : LetterContent) :
  bodyParagraphs (sanitize x) `prefix_of` bodyParagraphs x.
Proof. apply scan_to_end_prefix. Qed.

(** What [sanitize] drops from the body is a run at its end, each
    paragraph of it a match. *)
Lemma sanitize_body_run (x : LetterContent) :
  exists run,
    bodyParagraphs x = bodyParagraphs (sanitize x) ++ run /\
    matching_run (recipient_lines (recipientBlock x)) run = true.
Proof. apply scan_to_end_run. Qed.

(** A body whose last paragraph neither looks like a contact block nor
    repeats a line of the recipient block is left as it is. *)
Lemma sanitize_body_fixed (x : LetterContent) :
  (forall p, last (bodyParagraphs x) = Some p ->
             is_contact_block p = false /\
             duplicates_recipient (recipient_lines (recipientBlock x)) p
             = false) ->
  bodyParagraphs (sanitize x) = bodyParagraphs x.
Proof. intros H. now apply scan_to_end_fixed, scan_fixed. Qed.


(** C3: sanitize removes only a trailing run of the body, and only
    matches.  The body of the result is a prefix of the body of the input,
    and each paragraph that is dropped looks like a contact block, or
    repeats a line of the recipient block, or is a name line with a dropped
    contact block immediately below it.  So a paragraph followed by a kept
    one is itself kept, in its position and unchanged; a paragraph that is
    followed, at any later position, by a paragraph matching none of the
    patterns is kept, in its position and unchanged, whether or not it
    looks like a contact block itself; and a body that ends in a paragraph
    that neither looks like a contact block nor repeats a line loses
    nothing. *)
Theorem sanitize_removes_only_trailing_run (x : LetterContent) :
  (exists dropped,
     bodyParagraphs x = bodyParagraphs (sanitize x) ++ dropped /\
     matching_run (recipient_lines (recipientBlock x)) dropped = true) /\
  (forall i j : nat,
     (i <= j)%nat -> (j < length (bodyParagraphs (sanitize x)))%nat ->
     is_Some (bodyParagraphs x !! i) /\
     bodyParagraphs (sanitize x) !! i = bodyParagraphs x !! i) /\
  (forall (i j : nat) (p q : pystring),
     (i <= j)%nat ->
     bodyParagraphs x !! i = Some p ->
     bodyParagraphs x !! j = Some q ->
     substantive (recipient_lines (recipientBlock x)) q ->
     bodyParagraphs (sanitize x) !! i = Some p) /\
  (forall pre c post q,
     bodyParagraphs x = pre ++ c :: post ++ [q] ->
     is_contact_block c = true ->
     is_contact_block q = false ->
     duplicates_recipient (recipient_lines (recipientBlock x)) q = false ->
     bodyParagraphs (sanitize x) = pre ++ c :: post ++ [q]).
Proof.
  destruct (sanitize_body_run x) as (dropped & Hd & Hrun).
  split; [now exists dropped|]. split; [|split].
  - intros i j Hij Hj.
    set (out := bodyParagraphs (sanitize x)) in *.
    assert (Hi : (i < length out)%nat) by lia.
    rewrite Hd, lookup_app_l by exact Hi.
    split; [|reflexivity]. now apply lookup_lt_is_Some.
  - intros i j p q Hij Hp Hq Hsub.
    set (out := bodyParagraphs (sanitize x)) in *.
    destruct (decide (j < length out)%nat) as [Hj|Hj].
    + rewrite Hd in Hp. rewrite lookup_app_l in Hp by lia. exact Hp.
    + exfalso. rewrite Hd in Hq. rewrite lookup_app_r in Hq by lia.
      apply list_elem_of_lookup_2 in Hq.
      exact (matching_run_elem _ _ _ Hrun Hq Hsub).
  - intros pre c post q Hbody _ Hq Hdup. rewrite <- Hbody.
    apply sanitize_body_fixed. intros p Hp.
    rewrite Hbody in Hp.
    replace (pre ++ c :: post ++ [q]) with ((pre ++ c :: post) ++ [q]) in Hp
      by now rewrite <- app_assoc.
    rewrite last_snoc in Hp. injection Hp as <-. now split.
Qed.


End Patterns.

(** A closing e-mail line followed by a repeated company line: the first
    scan drops the company line only (step 1 finds no contact block at the
    end), and leaves a body that ends in the e-mail line; the second scan
    drops that. *)
Example one_scan_is_not_the_end :
  let body := [Demo.motivation; Demo.email; str "Acme AG"] in
  let lines := recipient_lines Demo.acme_block in
  scan has_at_sign never lines body = [Demo.motivation; Demo.email] /\
  scan_to_end has_at_sign never (length body) lines body = [Demo.motivation] /\
  bodyParagraphs (sanitize has_at_sign never (Demo.letter Demo.acme_block body))
    = [Demo.motivation].
Proof. cbv zeta. repeat split. Qed.

(** A repetition of a line the recipient block has only once it is
    normalized is dropped as well. *)
Example sanitize_sees_the_normalized_block :
  let x := Demo.letter [Demo.acme_single_line]
             [Demo.motivation; str "Acme AG"] in
  recipientBlock (sanitize has_at_sign never x) = Demo.acme_block /\
  bodyParagraphs (sanitize has_at_sign never x) = [Demo.motivation].
Proof. split; reflexivity. Qed.

(** A signature block of a name line and an e-mail line goes as a whole. *)
Example sanitize_drops_signature_block :
  let x := Demo.letter [Demo.acme_single_line]
             [Demo.motivation; Demo.invitation; str "Andri Heeb"; Demo.email] in
  bodyParagraphs (sanitize has_at_sign short_line x)
    = [Demo.motivation; Demo.invitation].
Proof. reflexivity. Qed.

Lemma sanitize_removes_only_trailing_run_witness :
  let x := Demo.letter Demo.acme_block
             [Demo.motivation; Demo.email; Demo.invitation; Demo.email;
              Demo.zurich] in
  bodyParagraphs (sanitize has_at_sign never x)
    = [Demo.motivation; Demo.email; Demo.invitation] /\
  bodyParagraphs (sanitize has_at_sign never x) !! 1%nat = Some Demo.email /\
  bodyParagraphs
    (sanitize has_at_sign never
       (Demo.letter Demo.acme_block
          [Demo.motivation; Demo.email; Demo.invitation]))
    = [Demo.motivation] ++ Demo.email :: [] ++ [Demo.invitation].
Proof.
  cbv zeta. split; [reflexivity|]. split.
  - destruct (sanitize_removes_only_trailing_run has_at_sign never
                (Demo.letter Demo.acme_block
                   [Demo.motivation; Demo.email; Demo.invitation; Demo.email;
                    Demo.zurich])) as (_ & _ & Hmid & _).
    apply (Hmid 1%nat 2%nat Demo.email Demo.invitation);
      [lia|reflexivity|reflexivity|repeat split].
  - destruct (sanitize_removes_only_trailing_run has_at_sign never
                (Demo.letter Demo.acme_block
                   [Demo.motivation; Demo.email; Demo.invitation]))
      as (_ & _ & _ & Hlast).
    apply Hlast; reflexivity.
Defined.

(** C4: the one-line block of the spec's example is normalized to exactly
    its three lines, none of which ends in punctuation; that is the
    recipient block sanitize returns for it, whatever the body and the
    patterns. *)
Theorem normalize_acme_single_line :
  normalize_recipient_block [Demo.acme_single_line]
    = [str "Acme AG"; str "Bahnhofstrasse 1"; Demo.zurich] /\
  length (normalize_recipient_block [Demo.acme_single_line]) = 3%nat /\
  forallb (fun l => negb (ends_in_punctuation l))
    (normalize_recipient_block [Demo.acme_single_line]) = true /\
  forall is_contact_block is_name_line body,
    recipientBlock
      (sanitize is_contact_block is_name_line
         (Demo.letter [Demo.acme_single_line] body))
    = [str "Acme AG"; str "Bahnhofstrasse 1"; Demo.zurich].
Proof. repeat split. Qed.

End SanitizerClaims.

(** ** The generator's retry *)

Module GeneratorClaims.
Import Generator.

Section Service.
Variable Service : Type.
Variable Prompt : Type.
Variable request : Service -> Prompt -> N -> Outcome * Service.
Variable cap : GeneratorForm.Length -> N.
Variable headroom : positive.

Local Abbreviation generate := (generate Service Prompt request cap headroom).

Lemma retry_budget_larger (b : N) : b < retry_budget headroom b.
Proof. unfold retry_budget. lia. Qed.

(** C5: a call whose response does not parse because the budget B cut it
    off is repeated once, with a budget larger than B, and whatever that
    second call fails of, truncation or not, is a GenerationError, after
    two calls in all; a response that does not parse for another reason is
    a GenerationError after the one call; no run makes a third call. *)
Theorem retry_once_on_truncation (s : Service) (p : Prompt)
    (len : GeneratorForm.Length) :
  let B := cap len in
  let B' := retry_budget headroom B in
  (forall s1 o2 s2,
     request s p B = (Truncated, s1) ->
     request s1 p B' = (o2, s2) ->
     B < B' /\
     calls (generate s p len) = [B; B'] /\
     service (generate s p len) = s2 /\
     (forall c, o2 = Parsed c -> result (generate s p len) = Content c) /\
     (o2 = Truncated \/ o2 = Unparsable ->
      result (generate s p len) = GenerationError)) /\
  (forall s1,
     request s p B = (Unparsable, s1) ->
     calls (generate s p len) = [B] /\
     service (generate s p len) = s1 /\
     result (generate s p len) = GenerationError) /\
  (length (calls (generate s p len)) <= 2)%nat.
Proof.
  cbv zeta. unfold Generator.generate, generate_within.
  split; [|split].
  - intros s1 o2 s2 H1 H2. rewrite H1, H2.
    split; [apply retry_budget_larger|].
    destruct o2; simpl; repeat split; try congruence;
      intros [?|?]; congruence.
  - intros s1 H1. rewrite H1. repeat split.
  - destruct (request s p (cap len)) as [[c| |] s1]; simpl; try lia.
    destruct (request s1 p _) as [[c| |] s2]; simpl; lia.
Qed.

End Service.

Lemma retry_once_on_truncation_witness :
  let script := [Truncated; Truncated; Parsed (Demo.letter [] [])] in
  let run :=
    generate nat unit (scripted script) (fun _ => 900) 400%positive
      0%nat tt GeneratorForm.short in
  calls run = [900; 1300] /\ result run = GenerationError /\
  service run = 2%nat.
Proof.
  cbv zeta.
  destruct (retry_once_on_truncation nat unit
              (scripted [Truncated; Truncated; Parsed (Demo.letter [] [])])
              (fun _ => 900) 400%positive 0%nat tt GeneratorForm.short)
    as (Hretry & _ & _).
  destruct (Hretry 1%nat Truncated 2%nat eq_refl eq_refl)
    as (_ & Hcalls & Hservice & _ & Hresult).
  split; [exact Hcalls|]. split; [|exact Hservice].
  apply Hresult. now left.
Defined.

(** A retry that parses gives the content. *)
Example retry_recovers :
  result
    (generate nat unit (scripted [Truncated; Parsed (Demo.letter [] [])])
       (fun _ => 900) 400%positive 0%nat tt GeneratorForm.short)
  = Content (Demo.letter [] []).
Proof. reflexivity. Qed.

End GeneratorClaims.

(** ** The renderer's tab stops *)

Module RendererClaims.
Import Letter Renderer.

Section Engine.
Variable mode : Mode.
Variable synthesize : TParagraph -> pystring -> Paragraph.

Local Abbreviation fill := (fill mode synthesize).
Local Abbreviation fill_template := (fill_template mode synthesize).
Local Abbreviation render := (render mode synthesize).

(** The engine fills the template's own paragraph first, and leaves its
    tab stops alone. *)
Lemma fill_first (x : LetterContent) (t : TParagraph) :
  exists p ps, fill x t = p :: ps /\ tabs p = t_tabs t.
Proof.
  unfold Renderer.fill.
  destruct (t_hole t) as [key|]; [|now eexists _, _].
  destruct (context x !! key) as [[s|ls|ps]|]; try now eexists _, _.
  - destruct mode; [|now eexists _, _].
    destruct ls; now eexists _, _.
  - destruct ps; now eexists _, _.
Qed.

Lemma filter_recipient_fill (x : LetterContent) (tpl : Template) :
  filter is_recipient (fill_template x tpl)
  = map (fun t => {| source := t; produced := fill x t |})
      (filter (holds "recipient_address") tpl).
Proof.
  induction tpl as [|t tpl IH]; [reflexivity|].
  unfold Renderer.fill_template in *. simpl map at 1.
  destruct (holds "recipient_address" t) eqn:Hh.
  - rewrite !filter_cons_True, IH; [reflexivity| |];
      unfold is_recipient; simpl; now rewrite Hh.
  - rewrite !filter_cons_False, IH; [reflexivity| |];
      unfold is_recipient; simpl; now rewrite Hh.
Qed.

Lemma first_recipient_tabs_fill (x : LetterContent) (tpl : Template)
    (t : TParagraph) :
  first_recipient_paragraph tpl = Some t ->
  first_recipient_tabs (fill_template x tpl) = t_tabs t.
Proof.
  unfold first_recipient_paragraph, first_recipient_tabs.
  rewrite filter_recipient_fill.
  destruct (filter (holds "recipient_address") tpl) as [|t' ts];
    [discriminate|].
  intros [= ->]. simpl.
  destruct (fill_first x t) as (p & ps & -> & Hp). exact Hp.
Qed.

(** After the repair every recipient paragraph has the tab stops of the
    first. *)
Lemma repair_recipient_tabs (doc : list Block) :
  Forall (fun p => tabs p = first_recipient_tabs doc)
    (recipient_paragraphs (repair doc)).
Proof.
  unfold recipient_paragraphs, repair.
  generalize (first_recipient_tabs doc) (date_tab_position doc).
  intros ts pos. induction doc as [|b doc IH]; [constructor|].
  simpl map at 2. destruct (is_recipient b) eqn:Hb.
  - rewrite filter_cons_True by (unfold is_recipient in *; simpl; now rewrite Hb).
    simpl. apply Forall_app. split; [|exact IH].
    apply Forall_forall. intros p Hp.
    apply list_elem_of_In, in_map_iff in Hp as (q & <- & _). reflexivity.
  - rewrite filter_cons_False by (rewrite Hb; auto). exact IH.
Qed.

(** The repair keeps the blocks and the number of paragraphs of each. *)
Lemma repair_shape (Q : nat -> Prop) (doc : list Block) :
  Forall (fun b => is_recipient b = true -> Q (length (produced b))) doc ->
  Forall (fun b => is_recipient b = true -> Q (length (produced b)))
    (repair doc).
Proof.
  unfold repair.
  generalize (first_recipient_tabs doc) (date_tab_position doc).
  intros ts pos H. induction H as [|b doc Hb _ IH]; [constructor|].
  simpl. constructor; [|exact IH].
  destruct (is_recipient b) eqn:E; [|congruence].
  intros _. simpl. rewrite length_map. now apply Hb.
Qed.

Lemma repair_recipient_count (doc : list Block) :
  length (recipient_paragraphs (repair doc))
  = length (recipient_paragraphs doc).
Proof.
  unfold recipient_paragraphs, repair.
  generalize (first_recipient_tabs doc) (date_tab_position doc).
  intros ts pos. induction doc as [|b doc IH]; [reflexivity|].
  simpl map at 2. destruct (is_recipient b) eqn:Hb.
  - rewrite !filter_cons_True
      by (try (unfold is_recipient in *; simpl); now rewrite Hb).
    simpl. rewrite !length_app, length_map. now rewrite IH.
  - rewrite !filter_cons_False by (rewrite Hb; auto). exact IH.
Qed.

Lemma context_recipient (x : LetterContent) :
  context x !! "recipient_address"%string = Some (VLines (recipientBlock x)).
Proof. reflexivity. Qed.

(** Where the engine splits, a recipient block of three lines becomes three
    paragraphs. *)
Lemma fill_recipient_split (x : LetterContent) (t : TParagraph) :
  mode = SplitParagraphs ->
  length (recipientBlock x) = 3%nat ->
  holds "recipient_address" t = true ->
  length (fill x t) = 3%nat.
Proof.
  intros Hmode Hlen Hh. unfold holds in Hh.
  apply bool_decide_eq_true in Hh. unfold Renderer.fill.
  rewrite Hh, context_recipient, Hmode.
  destruct (recipientBlock x) as [|l ls]; [discriminate|].
  simpl in *. rewrite length_map. lia.
Qed.

Lemma render_succeeds (tpl : Template) (x : LetterContent) :
  (forall key, key ∈ required -> exists t, t ∈ tpl /\ t_hole t = Some key) ->
  render tpl x = inr (repair (fill_template x tpl)).
Proof.
  intros H. unfold Renderer.render.
  destruct (filter _ required) as [|key keys] eqn:E; [reflexivity|].
  assert (Hkey : key ∈ filter (fun key => negb (existsb (holds key) tpl))
                   required) by (rewrite E; left).
  apply list_elem_of_filter in Hkey as [Hmiss Hreq].
  destruct (H key Hreq) as (t & Ht & Hhole).
  apply Is_true_true, negb_true_iff in Hmiss.
  assert (Hex : existsb (holds key) tpl = true).
  { apply existsb_exists. exists t. split; [now apply list_elem_of_In|].
    unfold holds. now apply bool_decide_eq_true. }
  congruence.
Qed.

(** C8: a template with its required placeholders and a letter whose
    recipient block has three lines render to a document in which every
    paragraph made from the recipient block has the tab stops of the
    template's first recipient paragraph; where the engine splits the
    block into paragraphs, each recipient paragraph of the template has
    become three. *)
Theorem recipient_paragraphs_carry_template_tabs (tpl : Template)
    (x : LetterContent) (t : TParagraph) :
  (forall key, key ∈ required -> exists t', t' ∈ tpl /\ t_hole t' = Some key) ->
  length (recipientBlock x) = 3%nat ->
  first_recipient_paragraph tpl = Some t ->
  exists doc,
    render tpl x = inr doc /\
    recipient_paragraphs doc <> [] /\
    Forall (fun p => tabs p = t_tabs t) (recipient_paragraphs doc) /\
    (mode = SplitParagraphs ->
     Forall (fun b => is_recipient b = true -> length (produced b) = 3%nat)
       doc).
Proof.
  intros Hreq Hlen Ht. exists (repair (fill_template x tpl)).
  split; [now apply render_succeeds|].
  pose proof (repair_recipient_tabs (fill_template x tpl)) as Htabs.
  rewrite (first_recipient_tabs_fill x tpl t Ht) in Htabs.
  split; [|split; [exact Htabs|]].
  - intros E. apply (f_equal length) in E.
    rewrite repair_recipient_count in E.
    unfold recipient_paragraphs in E. rewrite filter_recipient_fill in E.
    unfold first_recipient_paragraph in Ht.
    destruct (filter (holds "recipient_address") tpl) as [|t' ts];
      [discriminate|].
    injection Ht as ->. simpl in E.
    destruct (fill_first x t) as (p & ps & Hfill & _).
    rewrite Hfill in E. discriminate E.
  - intros Hmode. apply (repair_shape (fun n => n = 3%nat)).
    apply Forall_forall. intros b Hb Hrec.
    apply list_elem_of_In, in_map_iff in Hb as (t' & <- & _).
    now apply fill_recipient_split.
Qed.

End Engine.

Lemma recipient_paragraphs_carry_template_tabs_witness :
  exists doc,
    render SplitParagraphs Demo.bare Demo.template
      (Demo.letter Demo.acme_block [Demo.motivation]) = inr doc /\
    map tabs (recipient_paragraphs doc)
      = [Some [Demo.stop]; Some [Demo.stop]; Some [Demo.stop]] /\
    Forall (fun p => tabs p = Some [Demo.stop]) (recipient_paragraphs doc).
Proof.
  destruct (recipient_paragraphs_carry_template_tabs SplitParagraphs
              Demo.bare Demo.template
              (Demo.letter Demo.acme_block [Demo.motivation])
              (Demo.slot (Some [Demo.stop]) "recipient_address"))
    as (doc & Hdoc & _ & Htabs & _).
  - intros key Hkey. apply list_elem_of_In in Hkey. simpl in Hkey.
    destruct Hkey as [<-|[<-|[<-|[<-|[]]]]];
      [ exists (Demo.slot (Some [Demo.stop]) "date")
      | exists (Demo.slot (Some [Demo.stop]) "recipient_address")
      | exists (Demo.slot None "role")
      | exists (Demo.slot None "body_of_motivational_letter") ];
      (split; [apply list_elem_of_In; simpl; tauto|reflexivity]).
  - reflexivity.
  - reflexivity.
  - exists doc. split; [exact Hdoc|]. split; [|exact Htabs].
    vm_compute in Hdoc. injection Hdoc as <-. reflexivity.
Defined.

(** Before the repair the two paragraphs the engine synthesized have no
    tab stops. *)
Example synthesized_paragraphs_lack_tabs :
  map tabs
    (recipient_paragraphs
       (fill_template SplitParagraphs Demo.bare
          (Demo.letter Demo.acme_block [Demo.motivation]) Demo.template))
  = [Some [Demo.stop]; None; None].
Proof. reflexivity. Qed.

(** Laid out with line breaks, the block is one paragraph, and the repair
    puts a tab after each break. *)
Example line_breaks_get_tabs :
  map runs
    (recipient_paragraphs
       (repair
          (fill_template LineBreaks Demo.bare
             (Demo.letter Demo.acme_block [Demo.motivation]) Demo.template)))
  = [[Tab; Text (str "Acme AG"); Break; Tab; Text (str "Bahnhofstrasse 1");
      Break; Tab; Text Demo.zurich]].
Proof. reflexivity. Qed.

End RendererClaims.

(** * Further properties of the client *)

(** ** Trimming, again *)

Module TrimFacts.
Import TrailingFacts NormalizeFacts.

Lemma trimStart_drop_leading (s : jsstring) :
  trimStart s = drop_leading is_js_whitespace s.
Proof.
  induction s as [|c s IH]; [reflexivity|]. simpl.
  now destruct (is_js_whitespace c).
Qed.

Lemma drop_trailing_snoc {A} (P : A -> bool) (l : list A) (x : A) :
  drop_trailing P (l ++ [x]) = if P x then drop_trailing P l else l ++ [x].
Proof.
  induction l as [|y l IH].
  - simpl. now destruct (P x).
  - change ((y :: l) ++ [x]) with (y :: (l ++ [x])).
    rewrite !drop_trailing_unfold, IH. destruct (P x); [reflexivity|].
    now destruct l.
Qed.

Lemma drop_trailing_rev {A} (P : A -> bool) (l : list A) :
  rev (drop_leading P (rev l)) = drop_trailing P l.
Proof.
  induction l as [|x l IH] using rev_ind; [reflexivity|].
  rewrite rev_unit, drop_trailing_snoc. simpl.
  destruct (P x); [exact IH|].
  simpl. now rewrite rev_involutive.
Qed.

(** [trim] is [strip] for the white space of JavaScript. *)
Lemma trim_strip (s : jsstring) : trim s = strip is_js_whitespace s.
Proof.
  unfold trim, trimEnd, strip.
  now rewrite !trimStart_drop_leading, drop_trailing_rev.
Qed.

Lemma trim_idempotent (s : jsstring) : trim (trim s) = trim s.
Proof. rewrite !trim_strip. apply strip_idempotent. Qed.

(** A trimmed string neither begins nor ends with white space. *)
Lemma trim_ends (s : jsstring) :
  (forall c, head (trim s) = Some c -> is_js_whitespace c = false) /\
  (forall c, last (trim s) = Some c -> is_js_whitespace c = false).
Proof. rewrite trim_strip. apply strip_ends. Qed.

End TrimFacts.

(** ** What the form stores *)

Module UsvFacts.
Import NormalizeFacts TrimFacts.

Lemma to_usv_unfold (c : N) (s : jsstring) :
  to_usv (c :: s) =
  if is_high_surrogate c then
    match s with
    | d :: s' =>
        if is_low_surrogate d then c :: d :: to_usv s'
        else replacement_character :: to_usv s
    | [] => [replacement_character]
    end
  else if is_low_surrogate c then replacement_character :: to_usv s
  else c :: to_usv s.
Proof. reflexivity. Qed.

Lemma high_surrogate_not_whitespace (c : N) :
  is_high_surrogate c = true -> is_js_whitespace c = false.
Proof.
  unfold is_high_surrogate, is_js_whitespace. intros H.
  apply andb_true_iff in H as [H1 H2].
  apply N.leb_le in H1. apply N.leb_le in H2.
  repeat apply orb_false_intro;
    try (apply N.eqb_neq; lia).
  apply andb_false_iff. right. apply N.leb_gt. lia.
Qed.

Lemma low_surrogate_not_whitespace (c : N) :
  is_low_surrogate c = true -> is_js_whitespace c = false.
Proof.
  unfold is_low_surrogate, is_js_whitespace. intros H.
  apply andb_true_iff in H as [H1 H2].
  apply N.leb_le in H1. apply N.leb_le in H2.
  repeat apply orb_false_intro;
    try (apply N.eqb_neq; lia).
  apply andb_false_iff. right. apply N.leb_gt. lia.
Qed.

(** The conversion leaves white space where it is, and makes none. *)
Lemma to_usv_whitespace_pair (s : jsstring) :
  map is_js_whitespace (to_usv s) = map is_js_whitespace s /\
  forall c,
    map is_js_whitespace (to_usv (c :: s)) = map is_js_whitespace (c :: s).
Proof.
  induction s as [|d s [IHs IHd]].
  - split; [reflexivity|]. intros c. rewrite to_usv_unfold.
    destruct (is_high_surrogate c) eqn:Hh.
    + simpl. now rewrite (high_surrogate_not_whitespace c Hh).
    + destruct (is_low_surrogate c) eqn:Hl; [|reflexivity].
      simpl. now rewrite (low_surrogate_not_whitespace c Hl).
  - split; [exact (IHd d)|]. intros c. rewrite to_usv_unfold.
    destruct (is_high_surrogate c) eqn:Hh.
    + destruct (is_low_surrogate d) eqn:Hl.
      * change (map is_js_whitespace (c :: d :: to_usv s))
          with (is_js_whitespace c :: is_js_whitespace d
                  :: map is_js_whitespace (to_usv s)).
        now rewrite IHs.
      * change (map is_js_whitespace (replacement_character :: to_usv (d :: s)))
          with (false :: map is_js_whitespace (to_usv (d :: s))).
        rewrite (IHd d). simpl.
        now rewrite (high_surrogate_not_whitespace c Hh).
    + destruct (is_low_surrogate c) eqn:Hl.
      * change (map is_js_whitespace (replacement_character :: to_usv (d :: s)))
          with (false :: map is_js_whitespace (to_usv (d :: s))).
        rewrite (IHd d). simpl.
        now rewrite (low_surrogate_not_whitespace c Hl).
      * change (map is_js_whitespace (c :: to_usv (d :: s)))
          with (is_js_whitespace c :: map is_js_whitespace (to_usv (d :: s))).
        now rewrite (IHd d).
Qed.

Lemma to_usv_whitespace (s : jsstring) :
  map is_js_whitespace (to_usv s) = map is_js_whitespace s.
Proof. apply to_usv_whitespace_pair. Qed.

Lemma to_usv_length (s : jsstring) : length (to_usv s) = length s.
Proof.
  rewrite <- (length_map is_js_whitespace (to_usv s)), to_usv_whitespace.
  apply length_map.
Qed.

Lemma map_eq_head {A B} (f : A -> B) (u s : list A) :
  map f u = map f s -> f <$> head u = f <$> head s.
Proof. destruct u, s; simpl; intros H; try discriminate H; congruence. Qed.

Lemma map_eq_last {A B} (f : A -> B) (u s : list A) :
  map f u = map f s -> f <$> last u = f <$> last s.
Proof.
  revert s. induction u as [|x u IH]; intros [|y s] H;
    try discriminate H; [reflexivity|].
  injection H as Hxy H.
  destruct u as [|x' u], s as [|y' s]; try discriminate H.
  - simpl. now rewrite Hxy.
  - change (last (x :: x' :: u)) with (last (x' :: u)).
    change (last (y :: y' :: s)) with (last (y' :: s)).
    apply IH. exact H.
Qed.

(** A trimmed string is still trimmed once converted. *)
Lemma trim_to_usv (s : jsstring) : trim s = s -> trim (to_usv s) = to_usv s.
Proof.
  intros E. destruct (trim_ends s) as [Hh Hl]. rewrite E in Hh, Hl.
  pose proof (map_eq_head _ _ _ (to_usv_whitespace s)) as Mh.
  pose proof (map_eq_last _ _ _ (to_usv_whitespace s)) as Ml.
  rewrite trim_strip. apply strip_fixed.
  - intros x Hx. rewrite Hx in Mh. simpl in Mh.
    destruct (head s) as [y|]; [|discriminate Mh].
    injection Mh as ->. now apply Hh.
  - intros x Hx. rewrite Hx in Ml. simpl in Ml.
    destruct (last s) as [y|]; [|discriminate Ml].
    injection Ml as ->. now apply Hl.
Qed.

(** A string without surrogate code units is stored as it is. *)
Lemma to_usv_no_surrogate (s : jsstring) :
  forallb (fun c => negb (is_high_surrogate c || is_low_surrogate c)) s = true ->
  well_formed s.
Proof.
  unfold well_formed. induction s as [|c s IH]; [reflexivity|].
  intros H. apply andb_true_iff in H as [Hc Hs].
  apply negb_true_iff, orb_false_iff in Hc as [Hh Hl].
  rewrite to_usv_unfold, Hh, Hl. now rewrite (IH Hs).
Qed.

End UsvFacts.

(** ** The API base URL, in every environment *)

Module EnvExtras.
Import TrimFacts.

Lemma getApiBaseUrl_cases (env : environment) :
  Env.getApiBaseUrl env =
  match trim <$> env !! "NEXT_PUBLIC_API_BASE_URL"%string with
  | Some (c :: r) => c :: r
  | _ =>
      if truthy_opt (env !! "VERCEL"%string) then production else localhost
  end.
Proof.
  unfold Env.getApiBaseUrl. cbv zeta.
  destruct (trim <$> env !! "NEXT_PUBLIC_API_BASE_URL"%string) as [[|c r]|];
    reflexivity.
Qed.

(** X1: in every environment the current getApiBaseUrl returns a string
    that is not empty and has no white space at either end. *)
Theorem getApiBaseUrl_never_blank (env : environment) :
  Env.getApiBaseUrl env <> [] /\
  trim (Env.getApiBaseUrl env) = Env.getApiBaseUrl env.
Proof.
  rewrite getApiBaseUrl_cases.
  destruct (env !! "NEXT_PUBLIC_API_BASE_URL"%string) as [raw|]; simpl.
  - destruct (trim raw) as [|c r] eqn:E.
    + destruct (truthy_opt _); split; (discriminate || reflexivity).
    + split; [discriminate|]. rewrite <- E. apply trim_idempotent.
  - destruct (truthy_opt _); split; (discriminate || reflexivity).
Qed.

(** X2: on Vercel (VERCEL set and not empty) the current getApiBaseUrl
    returns the production URL when the base URL variable is unset or
    blank, and otherwise the trimmed variable; so it returns localhost only
    if the variable itself says so. *)
Theorem getApiBaseUrl_production_on_vercel (env : environment) (v : jsstring) :
  env !! "VERCEL"%string = Some v ->
  v <> [] ->
  (forall raw,
     env !! "NEXT_PUBLIC_API_BASE_URL"%string = Some raw -> trim raw <> [] ->
     Env.getApiBaseUrl env = trim raw) /\
  ((forall raw,
      env !! "NEXT_PUBLIC_API_BASE_URL"%string = Some raw -> trim raw = []) ->
   Env.getApiBaseUrl env = production) /\
  (Env.getApiBaseUrl env = localhost ->
   exists raw,
     env !! "NEXT_PUBLIC_API_BASE_URL"%string = Some raw /\
     trim raw = localhost).
Proof.
  intros Hv Hne. rewrite getApiBaseUrl_cases, Hv.
  assert (Ht : truthy_opt (Some v) = true) by (destruct v; [congruence|reflexivity]).
  rewrite Ht.
  destruct (env !! "NEXT_PUBLIC_API_BASE_URL"%string) as [raw|]; simpl.
  - destruct (trim raw) as [|c r] eqn:E.
    + split; [intros ? [= <-]; congruence|]. split; [reflexivity|].
      discriminate.
    + split; [now intros ? [= <-] _|]. split.
      * intros H. specialize (H raw eq_refl). congruence.
      * intros H. exists raw. now rewrite E.
  - split; [discriminate|]. split; [reflexivity|]. discriminate.
Qed.

Lemma getApiBaseUrl_production_on_vercel_witness :
  Env.getApiBaseUrl (<["VERCEL"%string := str "1"]> ∅) = production.
Proof.
  destruct (getApiBaseUrl_production_on_vercel (<["VERCEL"%string := str "1"]> ∅)
              (str "1")) as (_ & Hprod & _).
  - reflexivity.
  - discriminate.
  - apply Hprod. intros raw Hraw. vm_compute in Hraw. discriminate Hraw.
Defined.

(** X3: where VERCEL is unset or empty, the current getApiBaseUrl is the
    older one applied to the environment with the base URL variable
    trimmed. *)
Theorem getApiBaseUrl_refines_legacy (env : environment) :
  truthy_opt (env !! "VERCEL"%string) = false ->
  Env.getApiBaseUrl env =
  EnvLegacy.getApiBaseUrl
    (alter trim "NEXT_PUBLIC_API_BASE_URL"%string env).
Proof.
  intros Hv. rewrite getApiBaseUrl_cases, Hv.
  unfold EnvLegacy.getApiBaseUrl. cbv zeta. rewrite lookup_alter_eq.
  destruct (trim <$> env !! "NEXT_PUBLIC_API_BASE_URL"%string) as [[|c r]|];
    reflexivity.
Qed.

Lemma getApiBaseUrl_refines_legacy_witness :
  let env : environment :=
    <["NEXT_PUBLIC_API_BASE_URL"%string := str " http://api.test "]> ∅ in
  Env.getApiBaseUrl env =
  EnvLegacy.getApiBaseUrl
    (alter trim "NEXT_PUBLIC_API_BASE_URL"%string env).
Proof.
  cbv zeta. apply getApiBaseUrl_refines_legacy. reflexivity.
Defined.

(** The older version keeps the blanks of the variable: a blank variable is
    the URL it returns. *)
Example legacy_returns_blank :
  EnvLegacy.getApiBaseUrl
    (<["NEXT_PUBLIC_API_BASE_URL"%string := str "  "]> ∅) = str "  ".
Proof. reflexivity. Qed.

End EnvExtras.

(** ** The Content-Disposition parser, the other way round *)

Module ParserExtras.
Import ContentDisposition Matching ParserFacts ParserClaims.

(** What the search finds is the value of a parameter of the input, the
    leftmost one. *)
Lemma exec_sound (s g : jsstring) :
  exec s = Some g ->
  exists pre tail,
    s = pre ++ tail /\ parameter_at_head tail g /\
    none_before (length pre) s.
Proof.
  induction s as [|c s IH]; rewrite exec_unfold; intros E.
  - destruct (match_here []) eqn:M; [|discriminate]. injection E as ->.
    exists [], []. apply match_here_spec in M.
    repeat split; [exact M|]. intros pre tail g' _ Hlen. simpl in Hlen. lia.
  - destruct (match_here (c :: s)) eqn:M.
    + injection E as ->. exists [], (c :: s). apply match_here_spec in M.
      repeat split; [exact M|]. intros pre tail g' _ Hlen. simpl in Hlen. lia.
    + destruct (IH E) as (pre & tail & -> & Hm & Hb).
      exists (c :: pre), tail. repeat split; [exact Hm|].
      intros [|c' pre'] tail' g' Hs Hlen; simpl in Hs.
      * subst tail'. now apply match_here_none.
      * injection Hs as <- Hs. apply (Hb pre' tail' g' Hs).
        simpl in Hlen. lia.
Qed.

Lemma parse_Some_exec (value : option jsstring) (g : jsstring) :
  parseFilenameFromContentDisposition value = Some g ->
  exists v, value = Some v /\ exec v = Some g.
Proof.
  unfold parseFilenameFromContentDisposition.
  destruct value as [v|]; [|discriminate].
  destruct (negb (truthy v)); [discriminate|].
  destruct (exec v) as [g'|] eqn:E; [|discriminate].
  destruct (truthy g'); [|discriminate]. intros [= ->].
  exists v. now split.
Qed.

Lemma exec_parse (v g : jsstring) :
  exec v = Some g -> parseFilenameFromContentDisposition (Some v) = Some g.
Proof.
  intros E. destruct (exec_sound v g E) as (pre & tail & -> & Hm & _).
  destruct Hm as (kw & post & -> & _ & Hne & _).
  unfold parseFilenameFromContentDisposition. rewrite E.
  destruct (pre ++ kw ++ quote :: g ++ quote :: post) eqn:El.
  - apply app_eq_nil in El as [_ El]. apply app_eq_nil in El as [_ El].
    discriminate El.
  - simpl. destruct g; [congruence|reflexivity].
Qed.

(** X4: whatever parseFilenameFromContentDisposition returns is the value
    of a double-quoted filename parameter of the header, the leftmost one:
    it stands in the header between two double quotes, right after the
    keyword (in any case), is not empty and holds no double quote; so it
    is at least eleven characters shorter than the header. *)
Theorem parse_result_is_leftmost_parameter (value : option jsstring)
    (g : jsstring) :
  parseFilenameFromContentDisposition value = Some g ->
  exists v pre kw post,
    value = Some v /\
    v = pre ++ kw ++ quote :: g ++ quote :: post /\
    same_ignoring_case kw keyword /\
    g <> [] /\ (quote ∉ g) /\
    none_before (length pre) v /\
    (length g + 11 <= length v)%nat.
Proof.
  intros H. apply parse_Some_exec in H as (v & -> & E).
  destruct (exec_sound v g E) as (pre & tail & -> & Hm & Hb).
  destruct Hm as (kw & post & -> & Hkw & Hne & Hq).
  exists (pre ++ kw ++ quote :: g ++ quote :: post), pre, kw, post.
  repeat split; try assumption.
  apply keyword_shape in Hkw as [Hl _].
  rewrite !length_app, Hl. simpl. rewrite length_app. simpl. lia.
Qed.

Lemma parse_result_is_leftmost_parameter_witness :
  exists v pre kw post,
    Some (str "inline; Filename=" ++ [quote] ++ str "cv.docx" ++ [quote])
    = Some v /\
    v = pre ++ kw ++ quote :: str "cv.docx" ++ quote :: post /\
    same_ignoring_case kw keyword /\
    str "cv.docx" <> [] /\ (quote ∉ str "cv.docx") /\
    none_before (length pre) v /\
    (length (str "cv.docx") + 11 <= length v)%nat.
Proof.
  apply parse_result_is_leftmost_parameter. reflexivity.
Defined.

(** X5: a header that has a double-quoted filename parameter anywhere
    makes parseFilenameFromContentDisposition return a filename: null is
    returned only for want of such a parameter. *)
Theorem parse_finds_a_parameter (v pre tail g : jsstring) :
  v = pre ++ tail ->
  parameter_at_head tail g ->
  exists g', parseFilenameFromContentDisposition (Some v) = Some g'.
Proof.
  intros Hv Hm.
  destruct (parseFilenameFromContentDisposition (Some v)) as [g'|] eqn:E;
    [now exists g'|].
  apply parse_none_iff in E. simpl in E. exfalso. exact (E pre tail g Hv Hm).
Qed.

Lemma parse_finds_a_parameter_witness :
  exists g',
    parseFilenameFromContentDisposition
      (Some (str "x=" ++ [quote] ++ str "; FILENAME=" ++ [quote] ++
             str "a.docx" ++ [quote])) = Some g'.
Proof.
  apply (parse_finds_a_parameter _
           (str "x=" ++ [quote] ++ str "; ")
           (str "FILENAME=" ++ [quote] ++ str "a.docx" ++ [quote])
           (str "a.docx")).
  - reflexivity.
  - apply match_here_spec. reflexivity.
Defined.

(** A parameter of an extended input that ends before a double quote of the
    input itself is a parameter of the input. *)
Lemma parameter_within (v extra g : jsstring) (i : nat) :
  parameter_at_head (v ++ extra) g ->
  v !! i = Some quote ->
  (length keyword < i)%nat ->
  parameter_at_head v g.
Proof.
  intros (kw & post & Hs & Hkw & Hne & Hq) Hi Hlt.
  destruct (keyword_shape kw Hkw) as [Hl _].
  assert (Hiv : (i < length v)%nat) by (eapply lookup_lt_Some; eassumption).
  assert (Hx : (v ++ extra) !! i = Some quote) by now rewrite lookup_app_l.
  assert (Hge : (length kw + 1 + length g <= i)%nat).
  { destruct (le_lt_dec (length kw + 1 + length g) i) as [|Hin]; [assumption|].
    exfalso. apply Hq.
    replace (kw ++ quote :: g ++ quote :: post)
      with ((kw ++ [quote]) ++ g ++ quote :: post) in Hs
      by now rewrite <- app_assoc.
    rewrite Hs, lookup_app_r in Hx by (rewrite length_app; simpl; lia).
    rewrite lookup_app_l in Hx by (rewrite length_app; simpl; lia).
    eapply list_elem_of_lookup_2. exact Hx. }
  set (n := (length kw + 1 + length g + 1)%nat).
  assert (Ht : take n v = kw ++ quote :: g ++ [quote]).
  { rewrite <- (take_app_le v extra n) by (unfold n; lia). rewrite Hs.
    replace (kw ++ quote :: g ++ quote :: post)
      with ((kw ++ quote :: g ++ [quote]) ++ post)
      by (rewrite <- !app_assoc; simpl; now rewrite <- app_assoc).
    apply take_app_length'. unfold n.
    rewrite length_app. simpl. rewrite length_app. simpl. lia. }
  exists kw, (drop n v). repeat split; try assumption.
  rewrite <- (take_drop n v) at 1. rewrite Ht.
  rewrite <- !app_assoc. simpl. now rewrite <- app_assoc.
Qed.

Lemma parameter_extends (v extra g : jsstring) :
  parameter_at_head v g -> parameter_at_head (v ++ extra) g.
Proof.
  intros (kw & post & -> & Hkw & Hne & Hq).
  exists kw, (post ++ extra). repeat split; try assumption.
  rewrite <- !app_assoc. simpl. now rewrite <- app_assoc.
Qed.

(** An input with a parameter has a double quote behind the keyword's
    length. *)
Lemma exec_quote_position (s g : jsstring) :
  exec s = Some g ->
  exists i, s !! i = Some quote /\ (length keyword <= i)%nat.
Proof.
  intros E. destruct (exec_sound s g E) as (pre & tail & -> & Hm & _).
  destruct Hm as (kw & post & -> & Hkw & _ & _).
  destruct (keyword_shape kw Hkw) as [Hl _].
  exists (length (pre ++ kw)). split.
  - rewrite app_assoc. now apply list_lookup_middle.
  - rewrite length_app. lia.
Qed.

Lemma exec_app (v extra g : jsstring) :
  exec v = Some g -> exec (v ++ extra) = Some g.
Proof.
  induction v as [|c v IH]; rewrite exec_unfold; intros E.
  - destruct (match_here []) eqn:M; [|discriminate].
    apply match_here_spec in M. destruct M as (kw & post & M & _).
    symmetry in M. apply app_eq_nil in M as [_ M]. discriminate M.
  - destruct (match_here (c :: v)) eqn:M.
    + injection E as ->. apply match_here_spec in M.
      apply (parameter_extends _ extra) in M. apply match_here_spec in M.
      now rewrite exec_unfold, M.
    + rewrite exec_unfold.
      destruct (match_here ((c :: v) ++ extra)) as [g'|] eqn:M'.
      * exfalso. apply match_here_spec in M'.
        destruct (exec_quote_position v g E) as (i & Hi & Hle).
        assert (Hm : parameter_at_head (c :: v) g').
        { apply (parameter_within (c :: v) extra g' (S i));
            [exact M'|exact Hi|lia]. }
        apply match_here_spec in Hm. congruence.
      * simpl app. now apply IH.
Qed.

(** X6: what follows a header cannot change the filename found in it: if
    parseFilenameFromContentDisposition returns a filename for a string,
    it returns the same filename for every extension of that string. *)
Theorem parse_stable_under_extension (v extra g : jsstring) :
  parseFilenameFromContentDisposition (Some v) = Some g ->
  parseFilenameFromContentDisposition (Some (v ++ extra)) = Some g.
Proof.
  intros H. apply parse_Some_exec in H as (v' & [= <-] & E).
  apply exec_parse. now apply exec_app.
Qed.

Lemma parse_stable_under_extension_witness :
  parseFilenameFromContentDisposition
    (Some ((str "attachment; filename=" ++ [quote] ++ str "a.docx" ++ [quote])
           ++ str "; filename*=UTF-8''a.docx")) = Some (str "a.docx").
Proof.
  apply parse_stable_under_extension. reflexivity.
Defined.

End ParserExtras.

(** ** The form that is sent *)

Module FormDataExtras.
Import GeneratorForm Session TrimFacts.

(** The entry a text cell contributes: none when it is blank. *)
Lemma generate_form_entries (c : Component) :
  generate_form c =
  match cvFile c with Some f => [(str "cv_pdf", FormFile f)] | None => [] end
  ++ match trim (jobUrl c) with
     | [] => []
     | v => [(str "job_url", FormString (to_usv v))]
     end
  ++ match trim (jobText c) with
     | [] => []
     | v => [(str "job_text", FormString (to_usv v))]
     end
  ++ [(str "language", FormString (Language_str (language c)));
      (str "tone", FormString (Tone_str (tone c)));
      (str "length", FormString (Length_str (letterLength c)))]
  ++ match trim (targetRole c) with
     | [] => []
     | v => [(str "target_role", FormString (to_usv v))]
     end.
Proof.
  unfold generate_form, append.
  destruct (cvFile c), (trim (jobUrl c)), (trim (jobText c)),
    (trim (targetRole c)), (language c), (tone c), (letterLength c);
    reflexivity.
Qed.

Lemma generate_form_fields (c : Component) :
  file_field (str "cv_pdf") (generate_form c) = cvFile c /\
  Resolver.field (str "job_url") (generate_form c)
    = match trim (jobUrl c) with [] => None | v => Some (to_usv v) end /\
  Resolver.field (str "job_text") (generate_form c)
    = match trim (jobText c) with [] => None | v => Some (to_usv v) end /\
  Resolver.field (str "language") (generate_form c)
    = Some (Language_str (language c)) /\
  Resolver.field (str "tone") (generate_form c)
    = Some (Tone_str (tone c)) /\
  Resolver.field (str "length") (generate_form c)
    = Some (Length_str (letterLength c)) /\
  Resolver.field (str "target_role") (generate_form c)
    = match trim (targetRole c) with [] => None | v => Some (to_usv v) end /\
  NoDup (names (generate_form c)).
Proof.
  rewrite generate_form_entries.
  destruct (cvFile c), (trim (jobUrl c)), (trim (jobText c)),
    (trim (targetRole c));
    repeat (split; [reflexivity|]);
    apply (bool_decide_unpack _); vm_compute; exact I.
Qed.

(** X7: looking a field up in the form onGenerate builds gives the cell it
    was made from: the selected file under cv_pdf; the trimmed job URL, job
    text and target role under their names when they are not blank, each as
    the USVString the form stores (an unpaired surrogate replaced by
    U+FFFD), which is the trimmed input itself when that is well formed,
    and nothing when they are blank; and the three options always; no name
    occurs twice. *)
Theorem generate_form_lookup (c : Component) :
  file_field (str "cv_pdf") (generate_form c) = cvFile c /\
  Resolver.field (str "job_url") (generate_form c)
    = match trim (jobUrl c) with [] => None | v => Some (to_usv v) end /\
  Resolver.field (str "job_text") (generate_form c)
    = match trim (jobText c) with [] => None | v => Some (to_usv v) end /\
  Resolver.field (str "language") (generate_form c)
    = Some (Language_str (language c)) /\
  Resolver.field (str "tone") (generate_form c)
    = Some (Tone_str (tone c)) /\
  Resolver.field (str "length") (generate_form c)
    = Some (Length_str (letterLength c)) /\
  Resolver.field (str "target_role") (generate_form c)
    = match trim (targetRole c) with [] => None | v => Some (to_usv v) end /\
  (well_formed (trim (jobUrl c)) -> trim (jobUrl c) <> [] ->
   Resolver.field (str "job_url") (generate_form c)
     = Some (trim (jobUrl c))) /\
  (well_formed (trim (jobText c)) -> trim (jobText c) <> [] ->
   Resolver.field (str "job_text") (generate_form c)
     = Some (trim (jobText c))) /\
  (well_formed (trim (targetRole c)) -> trim (targetRole c) <> [] ->
   Resolver.field (str "target_role") (generate_form c)
     = Some (trim (targetRole c))) /\
  NoDup (names (generate_form c)).
Proof.
  destruct (generate_form_fields c)
    as (Hf & Hu & Ht & Hl & Hto & Hle & Hr & Hn).
  repeat (split; [assumption|]).
  split; [|split; [|split; [|exact Hn]]].
  - intros Hw Hne. rewrite Hu.
    destruct (trim (jobUrl c)); [congruence|now rewrite Hw].
  - intros Hw Hne. rewrite Ht.
    destruct (trim (jobText c)); [congruence|now rewrite Hw].
  - intros Hw Hne. rewrite Hr.
    destruct (trim (targetRole c)); [congruence|now rewrite Hw].
Qed.

Lemma generate_form_lookup_witness :
  Resolver.field (str "job_url") (generate_form Demo.both)
    = Some (str "https://acme.example/jobs/1") /\
  Resolver.field (str "target_role") (generate_form Demo.both) = None.
Proof.
  destruct (generate_form_lookup Demo.both)
    as (_ & _ & _ & _ & _ & _ & Hrole & Hurl & _).
  split; [|exact Hrole].
  apply Hurl; [reflexivity|discriminate].
Defined.

(** A job URL that ends in half a surrogate pair is stored with U+FFFD in
    its place; a pair is stored as it is. *)
Example unpaired_surrogate_is_replaced :
  Resolver.field (str "job_url")
    (generate_form (Demo.with_sources (str "https://x/" ++ [55357]) []))
  = Some (str "https://x/" ++ [65533]) /\
  Resolver.field (str "job_url")
    (generate_form (Demo.with_sources (str "https://x/" ++ [55357; 56832]) []))
  = Some (str "https://x/" ++ [55357; 56832]).
Proof. split; reflexivity. Qed.

Lemma option_str_nonempty :
  (forall l, Language_str l <> [] /\ trim (Language_str l) = Language_str l) /\
  (forall t, Tone_str t <> [] /\ trim (Tone_str t) = Tone_str t) /\
  (forall l, Length_str l <> [] /\ trim (Length_str l) = Length_str l).
Proof.
  split; [|split]; intros []; split; (discriminate || reflexivity).
Qed.

(** A text cell that is not blank is stored not empty and trimmed. *)
Lemma stored_value_trimmed (s : jsstring) :
  trim s <> [] ->
  to_usv (trim s) <> [] /\ trim (to_usv (trim s)) = to_usv (trim s).
Proof.
  intros Hne. split.
  - now rewrite to_usv_nil_iff.
  - apply UsvFacts.trim_to_usv, trim_idempotent.
Qed.

(** X8: no text field of the form onGenerate builds is empty, and none
    begins or ends with white space. *)
Theorem generate_form_values_trimmed (c : Component) (name v : jsstring) :
  (name, FormString v) ∈ generate_form c ->
  v <> [] /\ trim v = v.
Proof.
  rewrite generate_form_entries.
  destruct option_str_nonempty as (Hl & Ht & Hn).
  pose proof (stored_value_trimmed (jobUrl c)) as Iu.
  pose proof (stored_value_trimmed (jobText c)) as It.
  pose proof (stored_value_trimmed (targetRole c)) as Ir.
  rewrite !elem_of_app. intros [H|[H|[H|[H|H]]]].
  - destruct (cvFile c); [apply list_elem_of_singleton in H; discriminate H|].
    now apply elem_of_nil in H.
  - destruct (trim (jobUrl c)) as [|x r]; [now apply elem_of_nil in H|].
    apply list_elem_of_singleton in H. injection H as _ ->.
    now apply Iu.
  - destruct (trim (jobText c)) as [|x r]; [now apply elem_of_nil in H|].
    apply list_elem_of_singleton in H. injection H as _ ->.
    now apply It.
  - rewrite !elem_of_cons, elem_of_nil in H.
    destruct H as [H|[H|[H|[]]]]; injection H as _ ->; auto.
  - destruct (trim (targetRole c)) as [|x r]; [now apply elem_of_nil in H|].
    apply list_elem_of_singleton in H. injection H as _ ->.
    now apply Ir.
Qed.

Lemma generate_form_values_trimmed_witness :
  str "https://acme.example/jobs/1" <> [] /\
  trim (str "https://acme.example/jobs/1") = str "https://acme.example/jobs/1".
Proof.
  apply (generate_form_values_trimmed Demo.both (str "job_url")).
  apply list_elem_of_In. vm_compute. tauto.
Defined.

End FormDataExtras.

(** ** The handlers, run after run *)

Module HandlerExtras.
Import GeneratorForm Session TrimFacts FormClaims FormDataExtras.

Section Platform.

Variable JSON_parse : jsstring -> option Json.
Variable URL_new : jsstring -> jsstring -> Thrown + jsstring.
Variable createObjectURL : Blob -> jsstring.
Variable fetch : jsstring -> FormData -> Thrown + Response.
Variable env : environment.

Local Abbreviation onGenerate :=
  (onGenerate JSON_parse URL_new createObjectURL fetch env).
Local Abbreviation autofillRoleFromUrl :=
  (autofillRoleFromUrl JSON_parse URL_new fetch env).
Local Abbreviation getErrorMessage := (getErrorMessage JSON_parse).

(** The filename onGenerate stores. *)
Local Abbreviation filename_of res :=
  (default (str "Cover_Letter.docx")
     (ContentDisposition.parseFilenameFromContentDisposition
        (res_content_disposition res))).

(** Every run of [onGenerate] is one of six. *)
Lemma onGenerate_runs (c : Component) :
  (trim (jobUrl c) = [] /\ trim (jobText c) = [] /\
   onGenerate c = [SetState (GenError no_job_source)]) \/
  ((trim (jobUrl c) <> [] \/ trim (jobText c) <> []) /\
   ((exists e,
       URL_new (str "/v1/generate") (apiBaseUrl env) = inl e /\
       onGenerate c =
         revoked c ++ [SetState GenLoading; SetState (GenError (getErrorMessage e))]) \/
    (exists url,
       URL_new (str "/v1/generate") (apiBaseUrl env) = inr url /\
       ((exists e,
           fetch url (generate_form c) = inl e /\
           onGenerate c =
             revoked c ++
             [SetState GenLoading; Fetch url (generate_form c);
              SetState (GenError (getErrorMessage e))]) \/
        (exists res,
           fetch url (generate_form c) = inr res /\
           ((res_ok res = false /\
             onGenerate c =
               revoked c ++
               [SetState GenLoading; Fetch url (generate_form c);
                SetState
                  (GenError
                     (getErrorMessage
                        (HttpError (res_status res)
                           (default [] (res_text res)))))]) \/
            (res_ok res = true /\
             ((exists e,
                 res_blob res = inl e /\
                 onGenerate c =
                   revoked c ++
                   [SetState GenLoading; Fetch url (generate_form c);
                    SetState (GenError (getErrorMessage e))]) \/
              (exists blob,
                 res_blob res = inr blob /\
                 onGenerate c =
                   revoked c ++
                   [SetState GenLoading; Fetch url (generate_form c);
                    CreateObjectURL blob;
                    SetDownloadUrlRef (createObjectURL blob);
                    SetState
                      (GenDone (createObjectURL blob) (filename_of res))]))))))))).
Proof.
  unfold GeneratorForm.onGenerate, fetchOk.
  destruct (trim (jobUrl c)) as [|x u] eqn:Eu;
    [destruct (trim (jobText c)) as [|y t] eqn:Et|].
  - left. repeat split.
  - right. split; [right; discriminate|]. simpl andb. cbv iota.
    fold (revoked c).
    destruct (URL_new _ _) as [e|url]; run_try; [left; now exists e|].
    right. exists url. split; [reflexivity|].
    destruct (fetch url (generate_form c)) as [e|res] eqn:Hf; run_try;
      [left; now exists e|].
    right. exists res. split; [reflexivity|].
    destruct (res_ok res); run_try; [right|left; now split].
    split; [reflexivity|].
    destruct (res_blob res) as [e|blob]; run_try;
      [left; now exists e|right; now exists blob].
  - right. split; [left; discriminate|]. simpl andb. cbv iota.
    fold (revoked c).
    destruct (URL_new _ _) as [e|url]; run_try; [left; now exists e|].
    right. exists url. split; [reflexivity|].
    destruct (fetch url (generate_form c)) as [e|res] eqn:Hf; run_try;
      [left; now exists e|].
    right. exists res. split; [reflexivity|].
    destruct (res_ok res); run_try; [right|left; now split].
    split; [reflexivity|].
    destruct (res_blob res) as [e|blob]; run_try;
      [left; now exists e|right; now exists blob].
Qed.

(** The six runs, case by case. *)
Ltac generate_runs c :=
  let e := fresh "e" in
  let url := fresh "url" in
  let res := fresh "res" in
  let blob := fresh "blob" in
  let Hrun := fresh "Hrun" in
  destruct (onGenerate_runs c)
    as [(?Hu & ?Ht & Hrun)
       |(?Hacc &
         [(e & ?Hurl & Hrun)
         |(url & ?Hurl &
           [(e & ?Hfetch & Hrun)
           |(res & ?Hfetch &
             [(?Hok & Hrun)
             |(?Hok & [(e & ?Hblob & Hrun)|(blob & ?Hblob & Hrun)])])])])];
  rewrite Hrun; clear Hrun.

Lemma states_set_revoked (c : Component) (l : list Effect) :
  states_set (revoked c ++ l) = states_set l.
Proof. unfold revoked. now destruct (state c). Qed.

Lemma requests_revoked (c : Component) (l : list Effect) :
  requests (revoked c ++ l) = requests l.
Proof. unfold revoked. now destruct (state c). Qed.

Lemma preview_states_set_revoked (c : Component) (l : list Effect) :
  preview_states_set (revoked c ++ l) = preview_states_set l.
Proof. unfold revoked. now destruct (state c). Qed.

Lemma roles_set_revoked (c : Component) (l : list Effect) :
  roles_set (revoked c ++ l) = roles_set l.
Proof. unfold revoked. now destruct (state c). Qed.

Lemma after_revoked (c : Component) (l : list Effect) :
  after c (revoked c ++ l) = after c l.
Proof. unfold revoked. now destruct (state c). Qed.

Ltac quiet_revoked :=
  rewrite ?states_set_revoked, ?requests_revoked,
    ?preview_states_set_revoked, ?roles_set_revoked, ?after_revoked.

(** X9: no run of onGenerate leaves the form loading: the last state it
    sets, which is the state the form is in afterwards, is the error state
    or the done state, and it sets at most two states. *)
Theorem onGenerate_ends_in_error_or_done (c : Component) :
  exists s,
    last (states_set (onGenerate c)) = Some s /\
    state (after c (onGenerate c)) = s /\
    ((exists m, s = GenError m) \/ (exists u f, s = GenDone u f)) /\
    (length (states_set (onGenerate c)) <= 2)%nat.
Proof.
  generate_runs c; quiet_revoked;
    eexists; (split; [reflexivity|]); (split; [reflexivity|]);
    (split; [|simpl; lia]); eauto.
Qed.

(** X10: onGenerate reaches the done state only with a response that is
    ok and whose body could be read: the URL of the done state is the
    object URL made of that body, and the filename is the one parsed from
    the response's Content-Disposition header, or the fallback. *)
Theorem onGenerate_done_only_if_ok (c : Component) (u f : jsstring) :
  GenDone u f ∈ states_set (onGenerate c) ->
  exists url res blob,
    URL_new (str "/v1/generate") (apiBaseUrl env) = inr url /\
    fetch url (generate_form c) = inr res /\
    res_ok res = true /\
    res_blob res = inr blob /\
    u = createObjectURL blob /\
    f = filename_of res.
Proof.
  generate_runs c; quiet_revoked; intros H;
    apply list_elem_of_In in H; simpl in H;
    try (intuition discriminate).
  destruct H as [H|[H|[]]]; [discriminate H|]. injection H as <- <-.
  exists url, res, blob. repeat split; assumption.
Qed.

(** The filename stored for a response is never empty and holds no double
    quote, parsed or not. *)
Lemma filename_sane (res : Response) :
  filename_of res <> [] /\ (ContentDisposition.quote ∉ filename_of res).
Proof.
  destruct (ContentDisposition.parseFilenameFromContentDisposition
              (res_content_disposition res)) as [g|] eqn:E; simpl.
  - apply ParserExtras.parse_Some_exec in E as (v & _ & E).
    apply ParserExtras.exec_sound in E as (pre & tail & _ & Hm & _).
    destruct Hm as (kw & post & _ & _ & Hne & Hq). now split.
  - split; [discriminate|]. absent_from_literal.
Qed.

(** X11: the filename of the done state is never empty and holds no double
    quote. *)
Theorem onGenerate_filename_sane (c : Component) (u f : jsstring) :
  GenDone u f ∈ states_set (onGenerate c) ->
  f <> [] /\ (ContentDisposition.quote ∉ f).
Proof.
  generate_runs c; quiet_revoked; intros H;
    apply list_elem_of_In in H; simpl in H;
    try (intuition discriminate).
  destruct H as [H|[H|[]]]; [discriminate H|]. injection H as _ <-.
  apply filename_sane.
Qed.

(** X12: a run of onGenerate sends at most one request; the one it sends
    goes to the URL built from the generate path and the API base URL,
    carries the form, and the form names a job URL or a job text that is
    not empty. *)
Theorem onGenerate_requests_at_most_one (c : Component) :
  requests (onGenerate c) = [] \/
  exists url,
    URL_new (str "/v1/generate") (apiBaseUrl env) = inr url /\
    requests (onGenerate c) = [Fetch url (generate_form c)] /\
    ((exists v, Resolver.field (str "job_url") (generate_form c) = Some v /\
                v <> []) \/
     (exists v, Resolver.field (str "job_text") (generate_form c) = Some v /\
                v <> [])).
Proof.
  destruct (generate_form_fields c) as (_ & Fu & Ft & _).
  assert (Hsrc :
    trim (jobUrl c) <> [] \/ trim (jobText c) <> [] ->
    (exists v, Resolver.field (str "job_url") (generate_form c) = Some v /\
               v <> []) \/
    (exists v, Resolver.field (str "job_text") (generate_form c) = Some v /\
               v <> [])).
  { intros [H|H]; [left|right].
    - rewrite Fu. destruct (trim (jobUrl c)); [congruence|].
      eexists. split; [reflexivity|now rewrite to_usv_nil_iff].
    - rewrite Ft. destruct (trim (jobText c)); [congruence|].
      eexists. split; [reflexivity|now rewrite to_usv_nil_iff]. }
  generate_runs c; quiet_revoked;
    try (left; reflexivity);
    right; exists url; (split; [assumption|]); (split; [reflexivity|]);
    now apply Hsrc.
Qed.

(** The role autofillRoleFromUrl reads off the preview's JSON. *)
Local Abbreviation detected data :=
  (match data with
   | JObject fields =>
       match lookup_field (str "role") fields with
       | Some (JString r) => Some (trim r)
       | _ => None
       end
   | _ => None
   end).

Local Abbreviation preview_form c :=
  [(str "job_url", FormString (to_usv (trim (jobUrl c))))].

(** Every run of [autofillRoleFromUrl] is one of eight. *)
Lemma autofill_runs (c : Component) :
  (trim (jobUrl c) = [] /\
   autofillRoleFromUrl c =
     [SetPreviewState (PrevError (str "Please enter a Job URL first."))]) \/
  (trim (jobUrl c) <> [] /\ trim (jobText c) <> [] /\
   autofillRoleFromUrl c = [SetPreviewState (PrevError job_text_is_set)]) \/
  (trim (jobUrl c) <> [] /\ trim (jobText c) = [] /\
   ((exists e,
       URL_new (str "/v1/job/preview") (apiBaseUrl env) = inl e /\
       autofillRoleFromUrl c =
         [SetPreviewState PrevLoading;
          SetPreviewState (PrevError (getErrorMessage e))]) \/
    (exists target,
       URL_new (str "/v1/job/preview") (apiBaseUrl env) = inr target /\
       exists outcome,
         autofillRoleFromUrl c =
           SetPreviewState PrevLoading :: Fetch target (preview_form c) ::
           outcome /\
         ((exists e,
             fetch target (preview_form c) = inl e /\
             outcome = [SetPreviewState (PrevError (getErrorMessage e))]) \/
          (exists res,
             fetch target (preview_form c) = inr res /\
             ((res_ok res = false /\
               outcome =
                 [SetPreviewState
                    (PrevError
                       (getErrorMessage
                          (HttpError (res_status res)
                             (default [] (res_text res)))))]) \/
              (res_ok res = true /\
               ((exists e,
                   res_json res = inl e /\
                   outcome =
                     [SetPreviewState (PrevError (getErrorMessage e))]) \/
                (exists data,
                   res_json res = inr data /\
                   ((exists r,
                       detected data = Some r /\ r <> [] /\
                       outcome =
                         [SetTargetRole r; SetPreviewState PrevIdle]) \/
                    ((detected data = None \/ detected data = Some []) /\
                     outcome =
                       [SetPreviewState
                          (PrevError
                             (str "Could not detect role from URL."))]))))))))))).
Proof.
  unfold GeneratorForm.autofillRoleFromUrl, fetchOk, append.
  destruct (trim (jobUrl c)) as [|x u] eqn:Eu; [left; now split|].
  right. cbn [truthy negb].
  destruct (trim (jobText c)) as [|y t] eqn:Et;
    [right|left; repeat split; discriminate].
  repeat split; [discriminate|].
  change (0 <? length (@nil N))%nat with false. cbv iota.
  destruct (URL_new _ _) as [e|target]; run_try; [left; now exists e|].
  right. exists target. split; [reflexivity|].
  destruct (fetch target _) as [e|res] eqn:Hf; run_try.
  { eexists. split; [reflexivity|]. left. now exists e. }
  destruct (res_ok res) eqn:Hok; run_try.
  2:{ eexists. split; [reflexivity|]. right. exists res.
      split; [reflexivity|]. left. now split. }
  destruct (res_json res) as [e|data] eqn:Hj; run_try.
  { eexists. split; [reflexivity|]. right. exists res.
    split; [reflexivity|]. right. split; [assumption|]. left. now exists e. }
  destruct (detected data) as [[|z r]|] eqn:Hd; run_try;
    (eexists; split; [reflexivity|]; right; exists res;
     split; [reflexivity|]; right; split; [assumption|]; right;
     exists data; split; [assumption|]).
  - right. split; [now right|reflexivity].
  - left. exists (z :: r). repeat split; [assumption|discriminate].
  - right. split; [now left|reflexivity].
Qed.

(** The eight runs, case by case. *)
Ltac autofill_cases c :=
  let e := fresh "e" in
  let target := fresh "target" in
  let outcome := fresh "outcome" in
  let res := fresh "res" in
  let data := fresh "data" in
  let r := fresh "r" in
  let Hrun := fresh "Hrun" in
  let Hout := fresh "Hout" in
  destruct (autofill_runs c)
    as [(?Hu & Hrun)
       |[(?Hu & ?Ht & Hrun)
        |(?Hu & ?Ht &
          [(e & ?Hurl & Hrun)
          |(target & ?Hurl & outcome & Hrun &
            [(e & ?Hfetch & Hout)
            |(res & ?Hfetch &
              [(?Hok & Hout)
              |(?Hok &
                [(e & ?Hjson & Hout)
                |(data & ?Hjson &
                  [(r & ?Hrole & ?Hne & Hout)
                  |(?Hrole & Hout)])])])])])]];
  rewrite Hrun; clear Hrun; try (rewrite Hout; clear Hout).

(** X13: a run of autofillRoleFromUrl sends at most one request; the one
    it sends goes to the URL built from the preview path and the API base
    URL, carries one field and nothing else, the trimmed job URL as the
    USVString the form stores (an unpaired surrogate replaced by U+FFFD),
    and is sent only when the job URL is not blank and the job text is. *)
Theorem autofill_requests_at_most_one (c : Component) :
  requests (autofillRoleFromUrl c) = [] \/
  exists target,
    trim (jobUrl c) <> [] /\ trim (jobText c) = [] /\
    URL_new (str "/v1/job/preview") (apiBaseUrl env) = inr target /\
    requests (autofillRoleFromUrl c) =
      [Fetch target
         [(str "job_url", FormString (to_usv (trim (jobUrl c))))]].
Proof using JSON_parse URL_new fetch env.
  autofill_cases c; try (left; reflexivity);
    right; exists target; repeat split; assumption.
Qed.

(** X14: no run of autofillRoleFromUrl leaves the preview loading: the
    last preview state it sets, which is the one the form is in
    afterwards, is an error or idle, and it is idle exactly when the run
    set the target role. *)
Theorem autofill_ends_in_error_or_idle (c : Component) :
  exists s,
    last (preview_states_set (autofillRoleFromUrl c)) = Some s /\
    previewState (after c (autofillRoleFromUrl c)) = s /\
    ((s = PrevIdle /\ exists r, roles_set (autofillRoleFromUrl c) = [r]) \/
     ((exists m, s = PrevError m) /\ roles_set (autofillRoleFromUrl c) = [])).
Proof using JSON_parse URL_new fetch env.
  autofill_cases c; eexists;
    (split; [reflexivity|]); (split; [reflexivity|]);
    first [ right; split; [eexists; reflexivity|reflexivity]
          | left; split; [reflexivity|eexists; reflexivity] ].
Qed.

(** X15: the target role autofillRoleFromUrl sets is never empty and has
    no white space at either end: it is the trimmed role string of the JSON
    object that an ok response to the preview request carried, and it is
    the target role of the form afterwards. *)
Theorem autofill_role_is_trimmed (c : Component) (r : jsstring) :
  r ∈ roles_set (autofillRoleFromUrl c) ->
  r <> [] /\ trim r = r /\
  targetRole (after c (autofillRoleFromUrl c)) = r /\
  exists target res fields r0,
    fetch target [(str "job_url", FormString (to_usv (trim (jobUrl c))))]
    = inr res /\
    res_ok res = true /\
    res_json res = inr (JObject fields) /\
    lookup_field (str "role") fields = Some (JString r0) /\
    r = trim r0.
Proof using JSON_parse URL_new fetch env.
  autofill_cases c; intros H; apply list_elem_of_In in H; simpl in H;
    try contradiction.
  destruct H as [<-|[]].
  destruct data as [| | | | |fields]; try discriminate.
  destruct (lookup_field (str "role") fields) as [[| | |raw| |]|] eqn:Hl;
    try discriminate.
  injection Hrole as <-.
  split; [assumption|]. split; [apply trim_idempotent|].
  split; [reflexivity|].
  exists target, res, fields, raw. repeat split; assumption.
Qed.

Lemma handlers_cells (c : Component) :
  (states_set (autofillRoleFromUrl c) = [] /\
   (forall e, e ∈ autofillRoleFromUrl c ->
      match e with
      | CreateObjectURL _ | RevokeObjectURL _ | SetDownloadUrlRef _ => False
      | _ => True
      end) /\
   state (after c (autofillRoleFromUrl c)) = state c /\
   downloadUrlRef (after c (autofillRoleFromUrl c)) = downloadUrlRef c) /\
  (preview_states_set (onGenerate c) = [] /\
   roles_set (onGenerate c) = [] /\
   previewState (after c (onGenerate c)) = previewState c /\
   targetRole (after c (onGenerate c)) = targetRole c) /\
  (forall log, log = onGenerate c \/ log = autofillRoleFromUrl c ->
     jobUrl (after c log) = jobUrl c /\
     jobText (after c log) = jobText c /\
     cvFile (after c log) = cvFile c /\
     language (after c log) = language c /\
     tone (after c log) = tone c /\
     letterLength (after c log) = letterLength c).
Proof.
  split; [|split].
  - autofill_cases c; repeat split;
      intros e' He'; apply list_elem_of_In in He'; simpl in He';
      intuition (subst; exact I).
  - generate_runs c; quiet_revoked; repeat split.
  - intros log [-> | ->].
    + generate_runs c; quiet_revoked; repeat split.
    + autofill_cases c; repeat split.
Qed.

(** X16: the two handlers keep to their own cells. A run of
    autofillRoleFromUrl sets no generate state, makes and revokes no object
    URL, and leaves the generate state and the download ref as they were;
    a run of onGenerate sets no preview state and no target role, and
    leaves them as they were; neither changes what the user entered. *)
Theorem handlers_keep_to_their_cells (c : Component) :
  (states_set (autofillRoleFromUrl c) = [] /\
   (forall e, e ∈ autofillRoleFromUrl c ->
      match e with
      | CreateObjectURL _ | RevokeObjectURL _ | SetDownloadUrlRef _ => False
      | _ => True
      end) /\
   state (after c (autofillRoleFromUrl c)) = state c /\
   downloadUrlRef (after c (autofillRoleFromUrl c)) = downloadUrlRef c) /\
  (preview_states_set (onGenerate c) = [] /\
   roles_set (onGenerate c) = [] /\
   previewState (after c (onGenerate c)) = previewState c /\
   targetRole (after c (onGenerate c)) = targetRole c) /\
  (forall log, log = onGenerate c \/ log = autofillRoleFromUrl c ->
     jobUrl (after c log) = jobUrl c /\
     jobText (after c log) = jobText c /\
     cvFile (after c log) = cvFile c /\
     language (after c log) = language c /\
     tone (after c log) = tone c /\
     letterLength (after c log) = letterLength c).
Proof. exact (handlers_cells c). Qed.

Lemma getErrorMessage_detail (status : N) (body : jsstring)
    (fields : list (jsstring * Json)) (d : jsstring) :
  JSON_parse body = Some (JObject fields) ->
  lookup_field (str "detail") fields = Some (JString d) ->
  getErrorMessage (HttpError status body) = d.
Proof. intros Hp Hd. unfold GeneratorForm.getErrorMessage. now rewrite Hp, Hd. Qed.

(** X17: the detail of an API error reaches the user: when the response is
    not ok and its body parses to a JSON object with a string detail, a
    run of onGenerate ends in the error state with exactly that detail as
    its message, and so does a run of autofillRoleFromUrl for the preview
    state. *)
Theorem http_error_detail_is_shown (res : Response) (body : jsstring)
    (fields : list (jsstring * Json)) (d : jsstring) :
  res_ok res = false ->
  res_text res = Some body ->
  JSON_parse body = Some (JObject fields) ->
  lookup_field (str "detail") fields = Some (JString d) ->
  (forall c url,
     trim (jobUrl c) <> [] \/ trim (jobText c) <> [] ->
     URL_new (str "/v1/generate") (apiBaseUrl env) = inr url ->
     fetch url (generate_form c) = inr res ->
     states_set (onGenerate c) = [GenLoading; GenError d] /\
     state (after c (onGenerate c)) = GenError d) /\
  (forall c target,
     trim (jobUrl c) <> [] -> trim (jobText c) = [] ->
     URL_new (str "/v1/job/preview") (apiBaseUrl env) = inr target ->
     fetch target [(str "job_url", FormString (to_usv (trim (jobUrl c))))]
     = inr res ->
     preview_states_set (autofillRoleFromUrl c) = [PrevLoading; PrevError d] /\
     previewState (after c (autofillRoleFromUrl c)) = PrevError d).
Proof.
  intros Hnok Htext Hparse Hdetail.
  pose proof (getErrorMessage_detail (res_status res) body fields d
                Hparse Hdetail) as Hmsg.
  split.
  - intros c url Hacc Hurl Hfetch.
    generate_runs c; quiet_revoked;
      try (destruct Hacc; congruence); try congruence.
    assert (res0 = res) as -> by congruence.
    rewrite Htext. simpl default. rewrite Hmsg. now split.
  - intros c target Hu Ht Hurl Hfetch.
    autofill_cases c; try congruence;
      assert (target0 = target) as -> by congruence; try congruence;
      assert (res0 = res) as -> by congruence; try congruence.
    rewrite Htext. simpl default. rewrite Hmsg. now split.
Qed.

(** X18: the message getErrorMessage gives is empty in two cases only: an
    Error whose own message is empty, and an HTTP error whose body is a
    JSON object with the empty string as its detail. *)
Theorem getErrorMessage_empty_only_if (err : Thrown) :
  getErrorMessage err = [] ->
  err = OtherError [] \/
  exists status body fields,
    err = HttpError status body /\
    JSON_parse body = Some (JObject fields) /\
    lookup_field (str "detail") fields = Some (JString []).
Proof.
  destruct err as [status body|message|]; simpl.
  - intros H. right. exists status, body.
    destruct (JSON_parse body) as [[| | | | |fields]|] eqn:Hp;
      try (destruct (truthy body); discriminate H).
    destruct (lookup_field _ fields) as [[| | |d| |]|] eqn:Hd;
      try (destruct (truthy body); discriminate H).
    subst d. exists fields. repeat split. exact Hd.
  - intros ->. now left.
  - discriminate.
Qed.

(** The done state's URL is the one the ref holds, and its filename is
    sane: both handlers keep that. *)
Lemma onGenerate_keeps_ref (c : Component) (u f : jsstring) :
  state (after c (onGenerate c)) = GenDone u f ->
  downloadUrlRef (after c (onGenerate c)) = Some u /\
  f <> [] /\ (ContentDisposition.quote ∉ f).
Proof.
  generate_runs c; quiet_revoked; simpl; try discriminate.
  intros [= <- <-]. split; [reflexivity|]. apply filename_sane.
Qed.

Lemma autofill_keeps_ref (c : Component) :
  state (after c (autofillRoleFromUrl c)) = state c /\
  downloadUrlRef (after c (autofillRoleFromUrl c)) = downloadUrlRef c.
Proof using JSON_parse URL_new fetch env.
  autofill_cases c; now split.
Qed.

End Platform.

Lemma onGenerate_done_only_if_ok_witness :
  exists url res blob,
    Demo.URL_new (str "/v1/generate") (apiBaseUrl Demo.env) = inr url /\
    Demo.fetch url (generate_form Demo.text_only) = inr res /\
    res_ok res = true /\
    res_blob res = inr blob /\
    str "blob:letter" = Demo.createObjectURL blob /\
    str "Cover_Letter.docx" =
      default (str "Cover_Letter.docx")
        (ContentDisposition.parseFilenameFromContentDisposition
           (res_content_disposition res)).
Proof.
  apply (onGenerate_done_only_if_ok Demo.JSON_parse Demo.URL_new
           Demo.createObjectURL Demo.fetch Demo.env Demo.text_only).
  apply list_elem_of_In. vm_compute. tauto.
Defined.

Lemma onGenerate_filename_sane_witness :
  str "Cover_Letter.docx" <> [] /\
  (ContentDisposition.quote ∉ str "Cover_Letter.docx").
Proof.
  apply (onGenerate_filename_sane Demo.JSON_parse Demo.URL_new
           Demo.createObjectURL Demo.fetch Demo.env Demo.text_only
           (str "blob:letter")).
  apply list_elem_of_In. vm_compute. tauto.
Defined.

Lemma autofill_role_is_trimmed_witness :
  let c := Demo.with_sources (str "https://acme.example/jobs/1") [] in
  str "Engineer" <> [] /\ trim (str "Engineer") = str "Engineer" /\
  targetRole
    (after c
       (autofillRoleFromUrl Demo.JSON_parse Demo.URL_new Demo.fetch Demo.env
          c)) = str "Engineer" /\
  exists target res fields r0,
    Demo.fetch target [(str "job_url", FormString (to_usv (trim (jobUrl c))))]
    = inr res /\
    res_ok res = true /\
    res_json res = inr (JObject fields) /\
    lookup_field (str "role") fields = Some (JString r0) /\
    str "Engineer" = trim r0.
Proof.
  cbv zeta.
  apply (autofill_role_is_trimmed Demo.JSON_parse Demo.URL_new Demo.fetch
           Demo.env).
  apply list_elem_of_In. vm_compute. tauto.
Defined.

Lemma http_error_detail_is_shown_witness :
  states_set
    (onGenerate Refusing.JSON_parse Demo.URL_new Demo.createObjectURL
       Refusing.fetch Demo.env Demo.text_only)
  = [GenLoading; GenError Refusing.detail] /\
  preview_states_set
    (autofillRoleFromUrl Refusing.JSON_parse Demo.URL_new Refusing.fetch
       Demo.env (Demo.with_sources (str "ftp://acme.example") []))
  = [PrevLoading; PrevError Refusing.detail].
Proof.
  destruct (http_error_detail_is_shown Refusing.JSON_parse Demo.URL_new
              Demo.createObjectURL Refusing.fetch Demo.env
              Refusing.response Refusing.body
              [(str "detail", JString Refusing.detail)] Refusing.detail)
    as [Hgen Hauto]; try reflexivity.
  split.
  - apply (Hgen Demo.text_only (str "http://localhost:8000/v1/generate"));
      [right; discriminate|reflexivity|reflexivity].
  - apply (Hauto (Demo.with_sources (str "ftp://acme.example") [])
             (str "http://localhost:8000/v1/job/preview"));
      [discriminate|reflexivity|reflexivity|reflexivity].
Defined.

Lemma getErrorMessage_empty_only_if_witness :
  OtherError [] = OtherError [] \/
  exists status body fields,
    OtherError [] = HttpError status body /\
    Demo.JSON_parse body = Some (JObject fields) /\
    lookup_field (str "detail") fields = Some (JString []).
Proof.
  apply (getErrorMessage_empty_only_if Demo.JSON_parse). reflexivity.
Defined.

(** A body that is no JSON is shown behind the status. *)
Example gateway_timeout_message :
  states_set
    (onGenerate Refusing.JSON_parse Demo.URL_new Demo.createObjectURL
       Refusing.fetch_gateway Demo.env Demo.text_only)
  = [GenLoading; GenError (str "HTTP 504: timeout")].
Proof. reflexivity. Qed.

End HandlerExtras.

(** ** The form over a whole session, and the upload widget *)

Module SessionExtras.
Import GeneratorForm Session FormDataExtras HandlerExtras.

(** One action keeps the done state's URL in the ref. *)
Lemma step_keeps_ref (env : environment) (c : Component) (a : Action) :
  (forall u f, state c = GenDone u f ->
     downloadUrlRef c = Some u /\ f <> [] /\ (ContentDisposition.quote ∉ f)) ->
  forall u f, state (step env c a) = GenDone u f ->
    downloadUrlRef (step env c a) = Some u /\
    f <> [] /\ (ContentDisposition.quote ∉ f).
Proof.
  intros H. destruct a as [v|v|v|l|t|l|files|files| |w|w]; simpl step;
    try exact H.
  - unfold FileUpload.handleDrop.
    destruct (FileUpload.first_file files); exact H.
  - intros u f. apply onGenerate_keeps_ref.
  - intros u f.
    destruct (autofill_keeps_ref (w_JSON_parse w) (w_URL_new w) (w_fetch w)
                env c) as [-> ->].
    apply H.
Qed.

Lemma run_keeps_ref (env : environment) (actions : list Action)
    (c : Component) :
  (forall u f, state c = GenDone u f ->
     downloadUrlRef c = Some u /\ f <> [] /\ (ContentDisposition.quote ∉ f)) ->
  forall u f, state (foldl (step env) c actions) = GenDone u f ->
    downloadUrlRef (foldl (step env) c actions) = Some u /\
    f <> [] /\ (ContentDisposition.quote ∉ f).
Proof.
  revert c. induction actions as [|a actions IH]; intros c H; [exact H|].
  simpl. apply IH. now apply step_keeps_ref.
Qed.

(** X19: whatever the user does with the form and whatever the platform
    answers, whenever the form is in the done state the URL it offers is
    the one the download ref holds, and the filename it offers is not
    empty and holds no double quote; so the clean-up on unmount revokes
    the offered URL (URLs are not empty). *)
Theorem done_url_is_revoked_on_unmount (env : environment)
    (actions : list Action) (u f : jsstring) :
  state (run env actions) = GenDone u f ->
  downloadUrlRef (run env actions) = Some u /\
  f <> [] /\ (ContentDisposition.quote ∉ f) /\
  (u <> [] -> unmount (run env actions) = [RevokeObjectURL u]).
Proof.
  unfold run. intros Hdone.
  destruct (run_keeps_ref env actions initial) with (u := u) (f := f)
    as (Href & Hne & Hq); [discriminate|exact Hdone|].
  repeat split; try assumption.
  intros Hu. unfold unmount. rewrite Href.
  destruct u; [congruence|reflexivity].
Qed.

Lemma done_url_is_revoked_on_unmount_witness :
  downloadUrlRef (run Demo.env DemoSession.actions) = Some (str "blob:letter") /\
  str "Cover_Letter.docx" <> [] /\
  (ContentDisposition.quote ∉ str "Cover_Letter.docx") /\
  (str "blob:letter" <> [] ->
   unmount (run Demo.env DemoSession.actions)
   = [RevokeObjectURL (str "blob:letter")]).
Proof.
  apply (done_url_is_revoked_on_unmount Demo.env DemoSession.actions).
  reflexivity.
Defined.

(** A text field is looked up past the file entry. *)
Lemma field_ignores_file (c : Component) (f : option File) (name : jsstring) :
  Resolver.field name (generate_form (set_cvFile f c))
  = Resolver.field name (generate_form (set_cvFile None c)).
Proof.
  rewrite !generate_form_entries. simpl.
  destruct f as [f|]; [|reflexivity].
  unfold Resolver.field. simpl find.
  case_bool_decide as Hname; [|reflexivity]. simpl in Hname. subst name.
  destruct (trim (jobUrl c)), (trim (jobText c)), (trim (targetRole c));
    reflexivity.
Qed.

(** X20: the file the upload widget hands over is the file the next
    generate request carries. A drop of files selects the first of them;
    a drop of none leaves the form as it was; a choice in the file dialog
    selects the first file, and clears the selection when there is none;
    the remove button clears it: then the form has no cv_pdf entry. *)
Theorem selected_file_reaches_form (env : environment) (c : Component) :
  (forall f more,
     file_field (str "cv_pdf")
       (generate_form (step env c (Drop (Some (f :: more))))) = Some f) /\
  step env c (Drop None) = c /\
  step env c (Drop (Some [])) = c /\
  (forall files,
     file_field (str "cv_pdf") (generate_form (step env c (Pick files)))
     = FileUpload.first_file files) /\
  file_field (str "cv_pdf") (generate_form (step env c Remove)) = None /\
  (forall a,
     match a with Drop _ | Pick _ | Remove => True | _ => False end ->
     forall name,
       Resolver.field name (generate_form (step env c a))
       = Resolver.field name (generate_form c)).
Proof.
  split; [|split; [|split; [|split; [|split]]]].
  - intros f more.
    destruct (generate_form_fields
                (step env c (Drop (Some (f :: more))))) as (-> & _).
    reflexivity.
  - reflexivity.
  - reflexivity.
  - intros files.
    destruct (generate_form_fields (step env c (Pick files))) as (-> & _).
    reflexivity.
  - destruct (generate_form_fields (step env c Remove)) as (-> & _).
    reflexivity.
  - intros a Ha name.
    assert (Hcells :
      forall f, Resolver.field name (generate_form (set_cvFile f c))
                = Resolver.field name (generate_form c)).
    { intros f. rewrite (field_ignores_file c f name).
      rewrite <- (field_ignores_file c (cvFile c) name).
      now destruct c. }
    destruct a as [v|v|v|l|t|l|files|files| |w|w]; try contradiction;
      simpl step.
    + unfold FileUpload.handleDrop.
      destruct (FileUpload.first_file files); [apply Hcells|reflexivity].
    + apply Hcells.
    + apply Hcells.
Qed.

End SessionExtras.
